(** * gonetx/ipset: command compilation, listing parser and restore streamer

    A shallow embedding of the Go package [ipset] (files cmd.go, options.go,
    set.go and the SetType constants) together with the properties stated
    about it.

    Conventions of the embedding.
    - A Go [string] and a Go [[]byte] are both byte sequences; both are
      modelled by [string] (a list of 8-bit [ascii] characters).
    - [uint], [uint32] and [byte] values are modelled by [N]; the widening
      conversion [uint64(x)] is the identity. [time.Duration] is a signed
      64-bit count of nanoseconds, modelled by [Z].
    - A Go [error] produced by [fmt.Errorf] is represented by its message;
      [nil] is [None].
    - The external tool is an explicit argument of every function that runs it.
    - A [sync.Pool] is a list of idle instances; which idle instance [Get]
      hands out is the caller-supplied [pick] (out of range: a fresh one). *)

From Stdlib Require Import ZArith NArith List String Ascii Bool Lia.
From Stdlib Require Import Numbers.DecimalString.
From Stdlib Require DecimalPos DecimalN.
From Stdlib Require Import Floats.PrimFloat Floats.FloatOps Floats.SpecFloat.
From Stdlib Require Import Numbers.Cyclic.Int63.Uint63.
Import ListNotations.

Local Open Scope string_scope.
Local Open Scope list_scope.

(** ** Go runtime helpers *)

(** [strings.HasPrefix(s, p)]. *)
Definition HasPrefix (s p : string) : bool := String.prefix p s.

(** [strconv.FormatUint(i, 10)]. *)
Definition i2str (i : N) : string := NilEmpty.string_of_uint (N.to_uint i).

(** [float64(x)] for an integer [0 <= x < 2^53]: exact. *)
Definition float64 (x : Z) : float := PrimFloat.of_uint63 (Uint63.of_Z x).

(** [uint64(f)] for a finite non-negative binary64 [f]: truncation. *)
Definition uint64_of_float (f : float) : N :=
  match Prim2SF f with
  | S754_finite false m e =>
      if (0 <=? e)%Z then Z.to_N (Z.shiftl (Zpos m) e)
      else Z.to_N (Z.shiftr (Zpos m) (- e))
  | _ => 0%N
  end.

Definition Second : Z := 1000000000.

(** [time.Duration.Seconds]: [float64(d / Second) + float64(d % Second) / 1e9]
    in IEEE binary64 arithmetic. It is only called on a positive duration
    (see [appendOptions]), for which quotient and remainder are non-negative. *)
Definition Seconds (d : Z) : float :=
  let sec := Z.quot d Second in
  let nsec := Z.rem d Second in
  PrimFloat.add (float64 sec) (PrimFloat.div (float64 nsec) (float64 Second)).

(** A [sync.Pool] with idle instances [p]: [Get] removes and returns the
    [pick]-th idle instance, or calls [New] when there is none. *)
Fixpoint poolGet {A : Type} (new : A) (pick : nat) (p : list A) : A * list A :=
  match p, pick with
  | [], _ => (new, [])
  | x :: p', O => (x, p')
  | x :: p', S k => let (y, q) := poolGet new k p' in (y, x :: q)
  end.

Definition poolPut {A : Type} (x : A) (p : list A) : list A := x :: p.

(** ** The SetType registry *)

Definition SetType := string.

Definition BitmapIp : SetType := "bitmap:ip".
Definition BitmapIpMac : SetType := "bitmap:ip,mac".
Definition BitmapPort : SetType := "bitmap:port".
Definition HashIp : SetType := "hash:ip".
Definition HashMac : SetType := "hash:mac".
Definition HashIpMac : SetType := "hash:ip,mac".
Definition HashNet : SetType := "hash:net".
Definition HashNetNet : SetType := "hash:net,net".
Definition HashIpPort : SetType := "hash:ip,port".
Definition HashNetPort : SetType := "hash:net,port".
Definition HashIpPortIp : SetType := "hash:ip,port,ip".
Definition HashIpPortNet : SetType := "hash:ip,port,net".
Definition HashIpMark : SetType := "hash:ip,mark".
Definition HashNetPortNet : SetType := "hash:net,port,net".
Definition HashNetIface : SetType := "hash:net,iface".
Definition ListSet : SetType := "list:set".

(** The sixteen set types, in the order of the test table [testSetTypes]. *)
Definition testSetTypes : list SetType :=
  [BitmapIp; BitmapIpMac; BitmapPort; HashIp; HashMac; HashIpMac; HashNet;
   HashNetNet; HashIpPort; HashNetPort; HashIpPortIp; HashIpPortNet;
   HashIpMark; HashNetPortNet; HashNetIface; ListSet].

(** ** Command and option words (cmd.go) *)

Definition _create := "create".
Definition _add := "add".
Definition _del := "del".
Definition _test := "test".
Definition _destroy := "destroy".
Definition _list := "list".
Definition _save := "save".
Definition _restore := "restore".
Definition _flush := "flush".
Definition _rename := "rename".
Definition _swap := "swap".

Definition _exist := "-exist".
Definition _resolve := "-resolve".
Definition _timeout := "timeout".
Definition _counters := "counters".
Definition _packets := "packets".
Definition _bytes := "bytes".
Definition _comment := "comment".
Definition _skbinfo := "skbinfo".
Definition _skbmark := "skbmark".
Definition _skbprio := "skbprio".
Definition _skbqueue := "skbqueue".
Definition _nomatch := "nomatch".
Definition _forceadd := "forceadd".
Definition _family := "family".
Definition _hashsize := "hashsize".
Definition _maxelem := "maxelem".
Definition _netmask := "netmask".
Definition _markmask := "markmask".
Definition _size := "size".
Definition _range := "range".

(** The eleven verbs, in the order of the test table [testActions]. *)
Definition testActions : list string :=
  [_create; _add; _del; _test; _destroy; _list; _save; _restore; _flush;
   _rename; _swap].

(** ** The modifier set (options.go) *)

Module Options.

Record options : Type := mk {
  exist : bool;
  resolve : bool;
  timeout : Z;
  counters : bool;
  countersPackets : N;
  countersBytes : N;
  comment : bool;
  commentContent : string;
  skbinfo : bool;
  skbmark : string;
  skbprio : string;
  skbqueue : N;
  hashSize : N;
  maxElem : N;
  family : string;
  nomatch : bool;
  forceadd : bool;
  ipRange : string;
  portRange : string;
  netmask : N;
  markmask : N;
  listSize : N
}.

(** [&options{}]: every field at its zero value. *)
Definition zero : options :=
  mk false false 0%Z false 0%N 0%N false "" false "" "" 0%N 0%N 0%N ""
     false false "" "" 0%N 0%N 0%N.

End Options.

Import Options.

(** An [Option] is one of the twenty-two exported closures over [*options];
    the type [options] is unexported, so no other closure can be written by a
    caller. Each constructor carries the captured value. (A nil [Option],
    whose call panics, is not represented.) *)
Inductive Option : Type :=
  | Timeout (d : Z)
  | Exist (b : bool)
  | Resolve (b : bool)
  | Comment (b : bool)
  | CommentContent (s : string)
  | Counters (b : bool)
  | Packets (n : N)
  | Bytes (n : N)
  | Skbinfo (b : bool)
  | Skbmark (s : string)
  | Skbprio (s : string)
  | Skbqueue (n : N)
  | HashSize (n : N)
  | MaxElem (n : N)
  | Family (f : string)
  | Nomatch (b : bool)
  | Forceadd (b : bool)
  | Netmask (n : N)
  | Markmask (n : N)
  | ListSize (n : N)
  | IpRange (s : string)
  | PortRange (s : string).

(** Calling the closure: [opt(o)]. *)
Definition call (opt : Option) (o : options) : options :=
  let '(mk ex rs tm ct cp cb cm cc si sm sp sq hs me fa nm fo ir pr nk mk_ ls) := o in
  match opt with
  | Timeout d => mk ex rs d ct cp cb cm cc si sm sp sq hs me fa nm fo ir pr nk mk_ ls
  | Exist b => mk b rs tm ct cp cb cm cc si sm sp sq hs me fa nm fo ir pr nk mk_ ls
  | Resolve b => mk ex b tm ct cp cb cm cc si sm sp sq hs me fa nm fo ir pr nk mk_ ls
  | Comment b => mk ex rs tm ct cp cb b cc si sm sp sq hs me fa nm fo ir pr nk mk_ ls
  | CommentContent s => mk ex rs tm ct cp cb cm s si sm sp sq hs me fa nm fo ir pr nk mk_ ls
  | Counters b => mk ex rs tm b cp cb cm cc si sm sp sq hs me fa nm fo ir pr nk mk_ ls
  | Packets n => mk ex rs tm ct n cb cm cc si sm sp sq hs me fa nm fo ir pr nk mk_ ls
  | Bytes n => mk ex rs tm ct cp n cm cc si sm sp sq hs me fa nm fo ir pr nk mk_ ls
  | Skbinfo b => mk ex rs tm ct cp cb cm cc b sm sp sq hs me fa nm fo ir pr nk mk_ ls
  | Skbmark s => mk ex rs tm ct cp cb cm cc si s sp sq hs me fa nm fo ir pr nk mk_ ls
  | Skbprio s => mk ex rs tm ct cp cb cm cc si sm s sq hs me fa nm fo ir pr nk mk_ ls
  | Skbqueue n => mk ex rs tm ct cp cb cm cc si sm sp n hs me fa nm fo ir pr nk mk_ ls
  | HashSize n => mk ex rs tm ct cp cb cm cc si sm sp sq n me fa nm fo ir pr nk mk_ ls
  | MaxElem n => mk ex rs tm ct cp cb cm cc si sm sp sq hs n fa nm fo ir pr nk mk_ ls
  | Family f => mk ex rs tm ct cp cb cm cc si sm sp sq hs me f nm fo ir pr nk mk_ ls
  | Nomatch b => mk ex rs tm ct cp cb cm cc si sm sp sq hs me fa b fo ir pr nk mk_ ls
  | Forceadd b => mk ex rs tm ct cp cb cm cc si sm sp sq hs me fa nm b ir pr nk mk_ ls
  | Netmask n => mk ex rs tm ct cp cb cm cc si sm sp sq hs me fa nm fo ir pr n mk_ ls
  | Markmask n => mk ex rs tm ct cp cb cm cc si sm sp sq hs me fa nm fo ir pr nk n ls
  | ListSize n => mk ex rs tm ct cp cb cm cc si sm sp sq hs me fa nm fo ir pr nk mk_ n
  | IpRange s => mk ex rs tm ct cp cb cm cc si sm sp sq hs me fa nm fo s pr nk mk_ ls
  | PortRange s => mk ex rs tm ct cp cb cm cc si sm sp sq hs me fa nm fo ir s nk mk_ ls
  end.

(** [options.apply]: the options are applied in order onto [o]. *)
Definition apply (o : options) (opts : list Option) : options :=
  fold_left (fun acc opt => call opt acc) opts o.

(** [optionsPool.Get()]. *)
Definition acquireOptions (pick : nat) (pool : list options) : options * list options :=
  poolGet Options.zero pick pool.

(** [releaseOptions]: the twenty-two assignments, then [optionsPool.Put(o)]. *)
Definition releaseOptions (o : options) (pool : list options) : list options :=
  let o := call (Timeout 0%Z) o in
  let o := call (Exist false) o in
  let o := call (Resolve false) o in
  let o := call (Counters false) o in
  let o := call (Packets 0%N) o in
  let o := call (Bytes 0%N) o in
  let o := call (Comment false) o in
  let o := call (CommentContent "") o in
  let o := call (Skbinfo false) o in
  let o := call (Skbmark "") o in
  let o := call (Skbprio "") o in
  let o := call (Skbqueue 0%N) o in
  let o := call (HashSize 0%N) o in
  let o := call (MaxElem 0%N) o in
  let o := call (Family "") o in
  let o := call (Nomatch false) o in
  let o := call (Forceadd false) o in
  let o := call (Netmask 0%N) o in
  let o := call (Markmask 0%N) o in
  let o := call (ListSize 0%N) o in
  let o := call (IpRange "") o in
  let o := call (PortRange "") o in
  poolPut o pool.

(** ** The command descriptor and the argument compiler (cmd.go) *)

Record cmd : Type := mkCmd {
  action : string;
  name : string;
  entry : string;
  setType : SetType;
  out : string
}.

Definition isTwoArgs (c : cmd) : bool :=
  (action c =? _list) || (action c =? _save) ||
  (action c =? _destroy) || (action c =? _flush).

Definition needExist (c : cmd) : bool :=
  (action c =? _create) || (action c =? _add) || (action c =? _del).

Definition needTimeout (c : cmd) : bool :=
  (action c =? _create) || (action c =? _add).

Definition needResolve (c : cmd) : bool :=
  (action c =? _list) || (action c =? _save).

Definition needCounters (c : cmd) : bool := action c =? _create.

Definition onlyAdd (c : cmd) : bool := action c =? _add.

Definition onlyCreate (c : cmd) : bool := action c =? _create.

Definition needNomatch (c : cmd) : bool :=
  (action c =? _add) &&
  ((setType c =? HashNet) || (setType c =? HashNetNet) ||
   (setType c =? HashNetPort) || (setType c =? HashIpPortNet) ||
   (setType c =? HashNetPortNet) || (setType c =? HashNetIface)).

Definition needFamily (c : cmd) : bool :=
  (action c =? _create) && negb (setType c =? HashMac) &&
  HasPrefix (setType c) "hash".

Definition needHash (c : cmd) : bool :=
  (action c =? _create) && HasPrefix (setType c) "hash".

Definition needNetmask (c : cmd) : bool :=
  (action c =? _create) &&
  ((setType c =? BitmapIp) || (setType c =? HashIp)).

Definition needMarkmask (c : cmd) : bool :=
  (action c =? _create) && (setType c =? HashIpMark).

Definition needListSize (c : cmd) : bool :=
  (action c =? _create) && (setType c =? ListSet).

Definition needIpRange (c : cmd) : bool :=
  (action c =? _create) &&
  ((setType c =? BitmapIp) || (setType c =? BitmapIpMac)).

Definition needPortRange (c : cmd) : bool :=
  (action c =? _create) && (setType c =? BitmapPort).

(** [if g { args = append(args, toks...) }]. *)
Definition appendIf (g : bool) (args toks : list string) : list string :=
  if g then args ++ toks else args.

(** The body of [cmd.appendArgs] between acquiring the options and the
    deferred release: twenty-two guarded appends, in source order. *)
Definition appendOptions (c : cmd) (o : options) (args : list string) : list string :=
  let args := appendIf ((0 <? timeout o)%Z && needTimeout c) args
                [_timeout; i2str (uint64_of_float (Seconds (timeout o)))] in
  let args := appendIf (exist o && needExist c) args [_exist] in
  let args := appendIf (resolve o && needResolve c) args [_resolve] in
  let args := appendIf (counters o && needCounters c) args [_counters] in
  let args := appendIf ((0 <? countersPackets o)%N && onlyAdd c) args
                [_packets; i2str (countersPackets o)] in
  let args := appendIf ((0 <? countersBytes o)%N && onlyAdd c) args
                [_bytes; i2str (countersBytes o)] in
  let args := appendIf (comment o && onlyCreate c) args [_comment] in
  let args := appendIf (negb (commentContent o =? "") && onlyAdd c) args
                [_comment; commentContent o] in
  let args := appendIf (skbinfo o && onlyCreate c) args [_skbinfo] in
  let args := appendIf (negb (skbmark o =? "") && onlyAdd c) args
                [_skbmark; skbmark o] in
  let args := appendIf (negb (skbprio o =? "") && onlyAdd c) args
                [_skbprio; skbprio o] in
  let args := appendIf (negb (skbqueue o =? 0)%N && onlyAdd c) args
                [_skbqueue; i2str (skbqueue o)] in
  let args := appendIf (nomatch o && needNomatch c) args [_nomatch] in
  let args := appendIf (forceadd o && onlyCreate c) args [_forceadd] in
  let args := appendIf (negb (family o =? "") && needFamily c) args
                [_family; family o] in
  let args := appendIf (negb (hashSize o =? 0)%N && needHash c) args
                [_hashsize; i2str (hashSize o)] in
  let args := appendIf (negb (maxElem o =? 0)%N && needHash c) args
                [_maxelem; i2str (maxElem o)] in
  let args := appendIf (negb (netmask o =? 0)%N && needNetmask c) args
                [_netmask; i2str (netmask o)] in
  let args := appendIf (negb (markmask o =? 0)%N && needMarkmask c) args
                [_markmask; i2str (markmask o)] in
  let args := appendIf (negb (listSize o =? 0)%N && needListSize c) args
                [_size; i2str (listSize o)] in
  let args := appendIf (negb (ipRange o =? "") && needIpRange c) args
                [_range; ipRange o] in
  let args := appendIf (negb (portRange o =? "") && needPortRange c) args
                [_range; portRange o] in
  args.

(** [cmd.appendArgs]: an options instance is taken from the pool, the caller's
    options are applied to it, the tokens are appended, and the instance is
    released. The second component is the pool afterwards. *)
Definition appendArgs (c : cmd) (args : list string) (opts : list Option)
    (pick : nat) (pool : list options) : list string * list options :=
  let (o0, pool1) := acquireOptions pick pool in
  let o := apply o0 opts in
  (appendOptions c o args, releaseOptions o pool1).

Definition buildArgs (c : cmd) (opts : list Option)
    (pick : nat) (pool : list options) : list string * list options :=
  let args := [action c; name c] in
  let args := if negb (isTwoArgs c) then args ++ [entry c] else args in
  appendArgs c args opts pick pool.

(** What [execCommand(ipsetPath, args...).CombinedOutput()] returned: the
    combined output and whether the error is non-nil. *)
Record execResult : Type := mkExec { output : string; failed : bool }.

(** The execution adapter, from argument tokens to the run's result. *)
Definition Adapter := list string -> execResult.

(** [cmd.exec]: the descriptor afterwards, the error, and the options pool. *)
Definition exec (run : Adapter) (c : cmd) (opts : list Option)
    (pick : nat) (pool : list options) : cmd * option string * list options :=
  let (args, pool') := buildArgs c opts pick pool in
  let r := run args in
  if failed r then
    if isTwoArgs c then
      (c, Some ("ipset: can't " ++ action c ++ " " ++ name c ++ ": " ++ output r)%string,
       pool')
    else
      (c, Some ("ipset: can't " ++ action c ++ " " ++ name c ++ " " ++ entry c
                ++ ": " ++ output r)%string, pool')
  else if needResolve c then
    (mkCmd (action c) (name c) (entry c) (setType c) (out c ++ output r)%string,
     None, pool')
  else (c, None, pool').

(** [&cmd{}]. *)
Definition zeroCmd : cmd := mkCmd "" "" "" "" "".

(** [getCmd(action, name, setType, entry...)]. *)
Definition getCmd (action' name' : string) (setType' : SetType) (entry' : list string)
    (pick : nat) (pool : list cmd) : cmd * list cmd :=
  let (c, pool') := poolGet zeroCmd pick pool in
  let e := match entry' with e0 :: _ => e0 | [] => entry c end in
  (mkCmd action' name' e setType' (out c), pool').

(** [putCmd]: [c.out = c.out[:0]], then [cmdPool.Put(c)]. *)
Definition putCmd (c : cmd) (pool : list cmd) : list cmd :=
  poolPut (mkCmd (action c) (name c) (entry c) (setType c) "") pool.

(** ** Sets (set.go) *)

Module set.
Record set : Type := mk { name : string; setType : SetType }.
End set.

Definition nl : ascii := "010"%char.
Definition cr : ascii := "013"%char.
Definition space : ascii := " "%char.

(** [bytes.Contains(b, sub)]. *)
Fixpoint Contains (b sub : string) : bool :=
  String.prefix sub b ||
  match b with
  | EmptyString => false
  | String _ b' => Contains b' sub
  end.

Definition notFlag : string := "NOT".

(** [set.Test]. *)
Definition Test (run : Adapter) (s : set.set) (entry : string) : bool * option string :=
  let r := run [_test; set.name s; entry] in
  if failed r then
    if Contains (output r) notFlag then (false, None)
    else (false, Some ("ipset: can't test " ++ set.name s ++ " " ++ entry ++ ": "
                       ++ output r)%string)
  else (true, None).

(** *** The listing parser *)

Record Info : Type := mkInfo {
  Name : string;
  SetType' : SetType;
  Revision : Z;
  Header : string;
  SizeInMemory : Z;
  References : Z;
  Entries : list string
}.

(** What a Go call that may panic can do: return a value, return an error,
    or panic. *)
Inductive result (A E : Type) : Type :=
  | Ok (a : A)
  | Error (e : E)
  | Panic.
Arguments Ok {A E} a.
Arguments Error {A E} e.
Arguments Panic {A E}.

Inductive numErr : Type := ErrSyntax | ErrRange.

(** [*strconv.NumError]. *)
Record NumError : Type := mkNumError { Func : string; Num : string; Err : numErr }.

(** The digit loop of [strconv.ParseUint(s, 10, 64)] with accumulator [n]. *)
Fixpoint parseUintLoop (s : string) (n : N) : N + numErr :=
  match s with
  | EmptyString => inl n
  | String c s' =>
      let d := N_of_ascii c in
      if ((48 <=? d) && (d <=? 57))%N then
        if (1844674407370955162 <=? n)%N then inr ErrRange
        else
          let n1 := (n * 10 + (d - 48))%N in
          if (18446744073709551615 <? n1)%N then inr ErrRange
          else parseUintLoop s' n1
      else inr ErrSyntax
  end.

Definition ParseUint (s : string) : N + numErr :=
  match s with
  | EmptyString => inr ErrSyntax
  | _ => parseUintLoop s 0%N
  end.

(** [strconv.Atoi] on a platform whose [int] has 64 bits: the value and the
    error. The fast path for short inputs and [ParseInt(s, 10, 0)] agree, so
    one definition serves; on a range error the value is the nearest bound. *)
Definition Atoi (s : string) : Z * option NumError :=
  let fail v e := (v, Some (mkNumError "Atoi" s e)) in
  match s with
  | EmptyString => fail 0%Z ErrSyntax
  | String c s' =>
      let '(neg, digits) :=
        if Ascii.eqb c "+" then (false, s')
        else if Ascii.eqb c "-" then (true, s')
        else (false, s) in
      let bound := if neg then (-9223372036854775808)%Z else 9223372036854775807%Z in
      match ParseUint digits with
      | inr ErrSyntax => fail 0%Z ErrSyntax
      | inr ErrRange => fail bound ErrRange
      | inl un =>
          if neg then
            if (9223372036854775808 <? un)%N then fail bound ErrRange
            else ((- Z.of_N un)%Z, None)
          else
            if (9223372036854775808 <=? un)%N then fail bound ErrRange
            else (Z.of_N un, None)
      end
  end.

(** [strings.LastIndexByte(t, c)]; [None] stands for -1. *)
Fixpoint LastIndexByte (t : string) (c : ascii) : option nat :=
  match t with
  | EmptyString => None
  | String a t' =>
      match LastIndexByte t' c with
      | Some j => Some (S j)
      | None => if Ascii.eqb a c then Some O else None
      end
  end.

(** The slice [t[n:]] for [n <= len(t)]. *)
Fixpoint sliceFrom (t : string) (n : nat) : string :=
  match n, t with
  | O, _ => t
  | S k, String _ t' => sliceFrom t' k
  | S _, EmptyString => EmptyString
  end.

(** [getNumber]: the named results [(n, err)] start at [(0, nil)]. *)
Definition getNumber (t : string) : Z * option NumError :=
  match LastIndexByte t space with
  | Some i => Atoi (sliceFrom t (i + 1))
  | None => (0%Z, None)
  end.

(** [bufio.MaxScanTokenSize]. *)
Definition MaxScanTokenSize : Z := 65536.

(** [dropCR]: one trailing carriage return is removed. *)
Fixpoint dropCR (s : string) : string :=
  match s with
  | EmptyString => EmptyString
  | String c EmptyString => if Ascii.eqb c cr then EmptyString else s
  | String c s' => String c (dropCR s')
  end.

(** What successive calls of [Scan] on a [bufio.Scanner] with [ScanLines]
    yield over [data], [cur] being the bytes of the current line read so far:
    the tokens returned before [Scan] first returns false and, when that is
    because a line does not fit the buffer of [MaxScanTokenSize] bytes
    ([ErrTooLong]), the token a further call of [Scan] returns, which is the
    full buffer, the first [MaxScanTokenSize] bytes of that line. After a
    scan that ended at the end of the input a further call returns false. *)
Fixpoint scanFrom (cur data : string) : list string * option string :=
  let full := dropCR (String.substring 0 (Z.to_nat MaxScanTokenSize) cur) in
  match data with
  | EmptyString =>
      if (String.length cur =? 0)%nat then ([], None)
      else if (MaxScanTokenSize <=? Z.of_nat (String.length cur))%Z then ([], Some full)
      else ([dropCR cur], None)
  | String c rest =>
      if Ascii.eqb c nl then
        if (MaxScanTokenSize <? Z.of_nat (String.length cur) + 1)%Z then ([], Some full)
        else let (ts, ov) := scanFrom EmptyString rest in (dropCR cur :: ts, ov)
      else scanFrom (cur ++ String c EmptyString)%string rest
  end.

Definition scanLines (data : string) : list string * option string :=
  scanFrom EmptyString data.

Definition setRevision (i : Info) (n : Z) : Info :=
  mkInfo (Name i) (SetType' i) n (Header i) (SizeInMemory i) (References i) (Entries i).
Definition setHeader (i : Info) (h : string) : Info :=
  mkInfo (Name i) (SetType' i) (Revision i) h (SizeInMemory i) (References i) (Entries i).
Definition setSizeInMemory (i : Info) (n : Z) : Info :=
  mkInfo (Name i) (SetType' i) (Revision i) (Header i) n (References i) (Entries i).
Definition setReferences (i : Info) (n : Z) : Info :=
  mkInfo (Name i) (SetType' i) (Revision i) (Header i) (SizeInMemory i) n (Entries i).
Definition appendEntries (i : Info) (es : list string) : Info :=
  mkInfo (Name i) (SetType' i) (Revision i) (Header i) (SizeInMemory i) (References i)
         (Entries i ++ es).

(** The two loops of [parseInfo] over the scanned lines: the header switch,
    left by [goto Entries] at a line starting with "M", then every remaining
    line appended as an entry. When the header loop ends because [Scan]
    returned false, the entries loop calls [Scan] once more and appends the
    token [late] it may still get (see [scanFrom]). *)
Fixpoint parseLines (info : Info) (lines : list string) (late : option string)
    : result Info NumError :=
  match lines with
  | [] =>
      match late with
      | Some t => Ok (appendEntries info [t])
      | None => Ok info
      end
  | t :: rest =>
      if HasPrefix t "Rev" then
        match getNumber t with
        | (n, None) => parseLines (setRevision info n) rest late
        | (_, Some e) => Error e
        end
      else if HasPrefix t "H" then
        if (String.length t <? 8)%nat then Panic
        else parseLines (setHeader info (sliceFrom t 8)) rest late
      else if HasPrefix t "S" then
        match getNumber t with
        | (n, None) => parseLines (setSizeInMemory info n) rest late
        | (_, Some e) => Error e
        end
      else if HasPrefix t "Ref" then
        match getNumber t with
        | (n, None) => parseLines (setReferences info n) rest late
        | (_, Some e) => Error e
        end
      else if HasPrefix t "M" then Ok (appendEntries info rest)
      else parseLines info rest late
  end.

(** [&Info{}]. *)
Definition zeroInfo : Info := mkInfo "" "" 0 "" 0 0 [].

Definition parseInfo (out : string) : result Info NumError :=
  let (lines, late) := scanLines out in parseLines zeroInfo lines late.

(** The error of [set.List]: from the tool ([cmd.exec]) or from the parser. *)
Inductive listError : Type :=
  | ExecError (msg : string)
  | ParseError (e : NumError).

(** [set.List]; the deferred [putCmd] runs on every path, a panic included. *)
Definition List (run : Adapter) (s : set.set) (opts : list Option)
    (pickCmd pickOpt : nat) (cmds : list cmd) (pool : list options)
    : result Info listError * list cmd * list options :=
  let (c, cmds1) := getCmd _list (set.name s) (set.setType s) [] pickCmd cmds in
  let '(c', err, pool') := exec run c opts pickOpt pool in
  let res :=
    match err with
    | Some e => Error (ExecError e)
    | None =>
        match parseInfo (out c') with
        | Ok info =>
            Ok (mkInfo (set.name s) (set.setType s) (Revision info) (Header info)
                       (SizeInMemory info) (References info) (Entries info))
        | Error e => Error (ParseError e)
        | Panic => Panic
        end
    end in
  (res, putCmd c' cmds1, pool').

(** *** The restore streamer *)

(** [maxRestoreSize = 1 << 16], a package variable that the tests lower. *)
Definition maxRestoreSize : Z := 65536.

(** What one run of the tool with a stdin pipe does, step by step as
    [set.restore] observes it. *)
Inductive pipeOutcome : Type :=
  | StdinPipeError (e : string)
  | WriteError (closeErr : option string)
  | CloseError (e : string)
  | Exited (out : string) (failed : bool).

(** One call of [set.restore]: the tool's arguments and the bytes for its
    standard input. *)
Record invocation : Type := mkInvocation { inv_args : list string; payload : string }.

(** The tool as seen by the streamer: its behaviour may depend on every
    earlier invocation. *)
Definition Tool := list invocation -> list string -> string -> pipeOutcome.

(** The error [set.restore] returns after each outcome: the pipe's error,
    whatever [pipe.Close()] returns after a failed write, or the tool's
    output as the message when it exits with a failure. *)
Definition pipeError (r : pipeOutcome) : option string :=
  match r with
  | StdinPipeError e => Some e
  | WriteError closeErr => closeErr
  | CloseError e => Some e
  | Exited out true => Some out
  | Exited _ false => None
  end.

(** The arguments of a restore run: [restore], and [-exist] when asked. *)
Definition restoreArgs (exist : list bool) : list string :=
  match exist with
  | true :: _ => [_restore; _exist]
  | _ => [_restore]
  end.

(** [set.restore]; the second component is the invocation log afterwards. *)
Definition restore (tool : Tool) (b : string) (exist : list bool)
    (log : list invocation) : option string * list invocation :=
  let args := restoreArgs exist in
  (pipeError (tool log args b), log ++ [mkInvocation args b]).

(** An [io.Reader]: it delivers [content] and then reports [io.EOF]
    ([readErr = None]) or fails with another error. *)
Record Reader : Type := mkReader { content : string; readErr : option string }.

(** The successive results of [br.ReadBytes('\n')] that come with a nil
    error (each ends in the delimiter), and the bytes returned together with
    the reader's final error. *)
Fixpoint readLines (data : string) : list string * string :=
  match data with
  | EmptyString => ([], EmptyString)
  | String c rest =>
      let (ls, tl) := readLines rest in
      if Ascii.eqb c nl then (String c EmptyString :: ls, tl)
      else match ls with
           | [] => ([], String c tl)
           | l :: ls' => (String c l :: ls', tl)
           end
  end.

(** The [for] loop of [set.Restore] and the final flush, [b] being the
    buffer; the error is the one before the deferred wrapping. *)
Fixpoint restoreLoop (tool : Tool) (max : Z) (exist : list bool)
    (lines : list string) (final : option string) (b : string)
    (log : list invocation) : option string * list invocation :=
  match lines with
  | [] =>
      match final with
      | Some e => (Some e, log)
      | None => restore tool b exist log
      end
  | bb :: rest =>
      if (max <? Z.of_nat (String.length b) + Z.of_nat (String.length bb))%Z then
        match restore tool b exist log with
        | (Some e, log') => (Some e, log')
        | (None, log') => restoreLoop tool max exist rest final bb log'
        end
      else restoreLoop tool max exist rest final (b ++ bb)%string log
  end.

(** The deferred wrapping of a non-nil error in [set.Restore]. *)
Definition restoreError (s : set.set) (e : string) : string :=
  ("ipset: can't restore to " ++ set.name s ++ "(" ++ set.setType s ++ "): " ++ e)%string.

(** [set.Restore] with [maxRestoreSize = max]. *)
Definition Restore (tool : Tool) (max : Z) (s : set.set) (r : Reader)
    (exist : list bool) (log : list invocation) : option string * list invocation :=
  let (err, log') :=
    restoreLoop tool max exist (fst (readLines (content r))) (readErr r)
                EmptyString log in
  (option_map (restoreError s) err, log').

(** ** The modifier categories in table form *)

(** The twenty-two guarded appends of [appendOptions], named. *)
Inductive Category : Type :=
  | CTimeout | CExist | CResolve | CCounters | CPackets | CBytes
  | CCommentFlag | CCommentContent | CSkbinfo | CSkbmark | CSkbprio
  | CSkbqueue | CNomatch | CForceadd | CFamily | CHashsize | CMaxelem
  | CNetmask | CMarkmask | CListSize | CIpRange | CPortRange.

(** The fixed category order: timeout, exist, resolve, counters, packets,
    bytes, comment flag, comment content, skbinfo, skbmark, skbprio, skbqueue,
    nomatch, forceadd, family, hashsize, maxelem, netmask, markmask, list
    size, ip range, port range. *)
Definition categoryOrder : list Category :=
  [CTimeout; CExist; CResolve; CCounters; CPackets; CBytes; CCommentFlag;
   CCommentContent; CSkbinfo; CSkbmark; CSkbprio; CSkbqueue; CNomatch;
   CForceadd; CFamily; CHashsize; CMaxelem; CNetmask; CMarkmask; CListSize;
   CIpRange; CPortRange].

(** The category an option belongs to: the field its closure assigns. *)
Definition categoryOf (opt : Option) : Category :=
  match opt with
  | Timeout _ => CTimeout
  | Exist _ => CExist
  | Resolve _ => CResolve
  | Comment _ => CCommentFlag
  | CommentContent _ => CCommentContent
  | Counters _ => CCounters
  | Packets _ => CPackets
  | Bytes _ => CBytes
  | Skbinfo _ => CSkbinfo
  | Skbmark _ => CSkbmark
  | Skbprio _ => CSkbprio
  | Skbqueue _ => CSkbqueue
  | HashSize _ => CHashsize
  | MaxElem _ => CMaxelem
  | Family _ => CFamily
  | Nomatch _ => CNomatch
  | Forceadd _ => CForceadd
  | Netmask _ => CNetmask
  | Markmask _ => CMarkmask
  | ListSize _ => CListSize
  | IpRange _ => CIpRange
  | PortRange _ => CPortRange
  end.

(** The flag token of a category. *)
Definition flagOf (k : Category) : string :=
  match k with
  | CTimeout => _timeout
  | CExist => _exist
  | CResolve => _resolve
  | CCounters => _counters
  | CPackets => _packets
  | CBytes => _bytes
  | CCommentFlag => _comment
  | CCommentContent => _comment
  | CSkbinfo => _skbinfo
  | CSkbmark => _skbmark
  | CSkbprio => _skbprio
  | CSkbqueue => _skbqueue
  | CNomatch => _nomatch
  | CForceadd => _forceadd
  | CFamily => _family
  | CHashsize => _hashsize
  | CMaxelem => _maxelem
  | CNetmask => _netmask
  | CMarkmask => _markmask
  | CListSize => _size
  | CIpRange => _range
  | CPortRange => _range
  end.

(** The predicate method [appendOptions] consults for a category. *)
Definition guard (k : Category) (c : cmd) : bool :=
  match k with
  | CTimeout => needTimeout c
  | CExist => needExist c
  | CResolve => needResolve c
  | CCounters => needCounters c
  | CPackets | CBytes | CCommentContent | CSkbmark | CSkbprio | CSkbqueue => onlyAdd c
  | CCommentFlag | CSkbinfo | CForceadd => onlyCreate c
  | CNomatch => needNomatch c
  | CFamily => needFamily c
  | CHashsize | CMaxelem => needHash c
  | CNetmask => needNetmask c
  | CMarkmask => needMarkmask c
  | CListSize => needListSize c
  | CIpRange => needIpRange c
  | CPortRange => needPortRange c
  end.

(** The test [appendOptions] makes on the category's field. *)
Definition isSet (k : Category) (o : options) : bool :=
  match k with
  | CTimeout => (0 <? timeout o)%Z
  | CExist => exist o
  | CResolve => resolve o
  | CCounters => counters o
  | CPackets => (0 <? countersPackets o)%N
  | CBytes => (0 <? countersBytes o)%N
  | CCommentFlag => comment o
  | CCommentContent => negb (commentContent o =? "")
  | CSkbinfo => skbinfo o
  | CSkbmark => negb (skbmark o =? "")
  | CSkbprio => negb (skbprio o =? "")
  | CSkbqueue => negb (skbqueue o =? 0)%N
  | CNomatch => nomatch o
  | CForceadd => forceadd o
  | CFamily => negb (family o =? "")
  | CHashsize => negb (hashSize o =? 0)%N
  | CMaxelem => negb (maxElem o =? 0)%N
  | CNetmask => negb (netmask o =? 0)%N
  | CMarkmask => negb (markmask o =? 0)%N
  | CListSize => negb (listSize o =? 0)%N
  | CIpRange => negb (ipRange o =? "")
  | CPortRange => negb (portRange o =? "")
  end.

(** The value tokens that follow the category's flag. *)
Definition valueOf (k : Category) (o : options) : list string :=
  match k with
  | CTimeout => [i2str (uint64_of_float (Seconds (timeout o)))]
  | CPackets => [i2str (countersPackets o)]
  | CBytes => [i2str (countersBytes o)]
  | CCommentContent => [commentContent o]
  | CSkbmark => [skbmark o]
  | CSkbprio => [skbprio o]
  | CSkbqueue => [i2str (skbqueue o)]
  | CFamily => [family o]
  | CHashsize => [i2str (hashSize o)]
  | CMaxelem => [i2str (maxElem o)]
  | CNetmask => [i2str (netmask o)]
  | CMarkmask => [i2str (markmask o)]
  | CListSize => [i2str (listSize o)]
  | CIpRange => [ipRange o]
  | CPortRange => [portRange o]
  | CExist | CResolve | CCounters | CCommentFlag | CSkbinfo | CNomatch
  | CForceadd => []
  end.

(** The tokens one category contributes: its flag and value, or nothing. *)
Definition segment (c : cmd) (o : options) (k : Category) : list string :=
  if isSet k o && guard k c then flagOf k :: valueOf k o else [].

(** Whether the value an option carries passes the test [appendOptions]
    makes on its field. *)
Definition supplied (opt : Option) : bool :=
  match opt with
  | Timeout d => (0 <? d)%Z
  | Packets n | Bytes n => (0 <? n)%N
  | Exist b | Resolve b | Comment b | Counters b | Skbinfo b | Nomatch b
  | Forceadd b => b
  | CommentContent s | Skbmark s | Skbprio s | Family s | IpRange s
  | PortRange s => negb (s =? "")
  | Skbqueue n | HashSize n | MaxElem n | Netmask n | Markmask n
  | ListSize n => negb (n =? 0)%N
  end.

(** ** The applicability matrix as the specification words it *)

(** Whether the value an option carries differs from its unset sentinel:
    zero duration, empty string, zero count, false flag. *)
Definition notSentinel (opt : Option) : bool :=
  match opt with
  | Timeout d => negb (d =? 0)%Z
  | Exist b | Resolve b | Comment b | Counters b | Skbinfo b | Nomatch b
  | Forceadd b => b
  | CommentContent s | Skbmark s | Skbprio s | Family s | IpRange s
  | PortRange s => negb (s =? "")
  | Packets n | Bytes n | Skbqueue n | HashSize n | MaxElem n | Netmask n
  | Markmask n | ListSize n => negb (n =? 0)%N
  end.

Definition oneOf (x : string) (l : list string) : bool := existsb (String.eqb x) l.

(** The table of legal (category, action, set type) combinations. *)
Definition spec_legal (k : Category) (a : string) (st : SetType) : bool :=
  match k with
  | CExist => oneOf a ["create"; "add"; "del"]
  | CTimeout => oneOf a ["create"; "add"]
  | CResolve => oneOf a ["list"; "save"]
  | CCounters => a =? "create"
  | CPackets | CBytes => a =? "add"
  | CCommentFlag => a =? "create"
  | CCommentContent => a =? "add"
  | CSkbinfo => a =? "create"
  | CSkbmark | CSkbprio | CSkbqueue => a =? "add"
  | CNomatch =>
      (a =? "add") &&
      oneOf st ["hash:net"; "hash:net,net"; "hash:net,port"; "hash:ip,port,net";
                "hash:net,port,net"; "hash:net,iface"]
  | CForceadd => a =? "create"
  | CFamily => (a =? "create") && String.prefix "hash:" st && negb (st =? "hash:mac")
  | CHashsize | CMaxelem => (a =? "create") && String.prefix "hash:" st
  | CNetmask => (a =? "create") && oneOf st ["bitmap:ip"; "hash:ip"]
  | CMarkmask => (a =? "create") && (st =? "hash:ip,mark")
  | CListSize => (a =? "create") && (st =? "list:set")
  | CIpRange => (a =? "create") && oneOf st ["bitmap:ip"; "bitmap:ip,mac"]
  | CPortRange => (a =? "create") && (st =? "bitmap:port")
  end.

(** The exhaustive comparison of the code's predicates with the table, over
    the eleven actions, the sixteen set types and every category. *)
Definition matrixAgrees : bool :=
  forallb (fun a =>
    forallb (fun st =>
      forallb (fun k => Bool.eqb (guard k (mkCmd a "" "" st "")) (spec_legal k a st))
              categoryOrder)
      testSetTypes)
    testActions.

(** ** Notions used to state the properties *)

(** [sub] occurs in [b]. *)
Definition occursIn (sub b : string) : Prop :=
  exists pre post : string, b = (pre ++ sub ++ post)%string.

(** The text after the last space of a line, the whole line when it has no
    space: its last space-delimited token. *)
Definition lastToken (t : string) : string :=
  match LastIndexByte t space with
  | Some i => sliceFrom t (i + 1)
  | None => t
  end.

(** No byte of [t] is a space. *)
Fixpoint noSpace (t : string) : bool :=
  match t with
  | EmptyString => true
  | String c rest => negb (Ascii.eqb c space) && noSpace rest
  end.

(** The field a header line sets through [getNumber], if it is one of the
    three numeric cases of the switch in [parseLines]. *)
Definition numericField (t : string) : option (Info -> Z -> Info) :=
  if HasPrefix t "Rev" then Some setRevision
  else if HasPrefix t "H" then None
  else if HasPrefix t "S" then Some setSizeInMemory
  else if HasPrefix t "Ref" then Some setReferences
  else None.

(** The payloads of a log, in order, and their concatenation. *)
Definition payloads (log : list invocation) : list string := map payload log.

Definition joined (ps : list string) : string := String.concat "" ps.

(** A stream made of newline-terminated lines only. *)
Fixpoint newlineTerminated (data : string) : bool :=
  match data with
  | EmptyString => true
  | String c EmptyString => Ascii.eqb c nl
  | String _ rest => newlineTerminated rest
  end.

Fixpoint noNewline (t : string) : bool :=
  match t with
  | EmptyString => true
  | String c rest => negb (Ascii.eqb c nl) && noNewline rest
  end.

(** A sequential run of the tool over the payloads [ps], started with the log
    [log]: every payload but the last was accepted, and [err] is what the
    last one returned. *)
Inductive chunkRun (tool : Tool) (args : list string)
    : list invocation -> list string -> option string -> Prop :=
  | run_last : forall log p,
      chunkRun tool args log [p] (pipeError (tool log args p))
  | run_next : forall log p ps err,
      pipeError (tool log args p) = None ->
      chunkRun tool args (log ++ [mkInvocation args p]) ps err ->
      chunkRun tool args log (p :: ps) err.

(** A chunk fails when its run does not go through: the pipe cannot be
    created, the write or the close fails, or the tool exits with a failure.
    This is read off the steps of a run, not off what [set.restore]
    returns. *)
Definition chunkFails (r : pipeOutcome) : bool :=
  match r with
  | Exited _ false => false
  | _ => true
  end.

(** A sequential run of the tool over the payloads [ps], started with the log
    [log], in which no chunk but possibly the last one fails; [r] is the
    outcome of the last one. *)
Inductive acceptedRun (tool : Tool) (args : list string)
    : list invocation -> list string -> pipeOutcome -> Prop :=
  | accepted_last : forall log p,
      acceptedRun tool args log [p] (tool log args p)
  | accepted_next : forall log p ps r,
      chunkFails (tool log args p) = false ->
      acceptedRun tool args (log ++ [mkInvocation args p]) ps r ->
      acceptedRun tool args log (p :: ps) r.

(** A tool whose first run cannot be written to, the pipe then closing
    without error; every later run is accepted. *)
Definition failedWriteFirst : Tool :=
  fun log _ _ =>
    match log with
    | [] => WriteError None
    | _ => Exited EmptyString false
    end.

(** A tool that accepts its first run and rejects every later one with the
    output "bad line". *)
Definition rejectLater : Tool :=
  fun log _ _ =>
    match log with
    | [] => Exited EmptyString false
    | _ => Exited "bad line" true
    end.

(** A tool that accepts every restore run. *)
Definition okTool : Tool := fun _ _ _ => Exited EmptyString false.

(** A tool that rejects every run with the given output. *)
Definition failingRun (msg : string) : Adapter := fun _ => mkExec msg true.

(** ** The remaining operations of a set (set.go) *)

(** [set.do]: a descriptor is taken from the pool with the entry, executed
    and put back; the result is the error of [cmd.exec] and the two pools. *)
Definition do (run : Adapter) (s : set.set) (action' entry' : string)
    (opts : list Option) (pickCmd pickOpt : nat) (cmds : list cmd)
    (pool : list options) : option string * list cmd * list options :=
  let (c, cmds1) := getCmd action' (set.name s) (set.setType s) [entry'] pickCmd cmds in
  let '(c', err, pool') := exec run c opts pickOpt pool in
  (err, putCmd c' cmds1, pool').

(** [set.Rename]. *)
Definition Rename (run : Adapter) (s : set.set) (newName : string)
    (pickCmd pickOpt : nat) (cmds : list cmd) (pool : list options)
    : option string * list cmd * list options :=
  do run s _rename newName [] pickCmd pickOpt cmds pool.

(** [set.Add]. *)
Definition Add (run : Adapter) (s : set.set) (entry' : string) (opts : list Option)
    (pickCmd pickOpt : nat) (cmds : list cmd) (pool : list options)
    : option string * list cmd * list options :=
  do run s _add entry' opts pickCmd pickOpt cmds pool.

(** [set.Del]. *)
Definition Del (run : Adapter) (s : set.set) (entry' : string) (opts : list Option)
    (pickCmd pickOpt : nat) (cmds : list cmd) (pool : list options)
    : option string * list cmd * list options :=
  do run s _del entry' opts pickCmd pickOpt cmds pool.

(** [ioutil.WriteFile(filename, data, 0600)] as the operating system answers
    it: the error, if any. *)
Definition FileWriter := string -> string -> option string.

(** [set.doToFile]: the error, the calls of [ioutil.WriteFile] made (file name
    and data), and the two pools. *)
Definition doToFile (run : Adapter) (writeFile : FileWriter) (s : set.set)
    (action' filename : string) (opts : list Option) (pickCmd pickOpt : nat)
    (cmds : list cmd) (pool : list options)
    : option string * list (string * string) * list cmd * list options :=
  let (c, cmds1) := getCmd action' (set.name s) (set.setType s) [] pickCmd cmds in
  let '(c', err, pool') := exec run c opts pickOpt pool in
  match err with
  | Some e => (Some e, [], putCmd c' cmds1, pool')
  | None => (writeFile filename (out c'), [(filename, out c')], putCmd c' cmds1, pool')
  end.

(** [set.ListToFile]. *)
Definition ListToFile (run : Adapter) (writeFile : FileWriter) (s : set.set)
    (filename : string) (opts : list Option) (pickCmd pickOpt : nat)
    (cmds : list cmd) (pool : list options)
    : option string * list (string * string) * list cmd * list options :=
  doToFile run writeFile s _list filename opts pickCmd pickOpt cmds pool.

(** [set.SaveToFile]. *)
Definition SaveToFile (run : Adapter) (writeFile : FileWriter) (s : set.set)
    (filename : string) (opts : list Option) (pickCmd pickOpt : nat)
    (cmds : list cmd) (pool : list options)
    : option string * list (string * string) * list cmd * list options :=
  doToFile run writeFile s _save filename opts pickCmd pickOpt cmds pool.

(** What [os.Open] answers: an error, or a file to read from together with
    what closing it will return. *)
Inductive openOutcome : Type :=
  | OpenError (e : string)
  | Opened (r : Reader) (closeErr : option string).

(** [set.RestoreFromFile]; [clean] is [filepath.Clean] and [open] is
    [os.Open]. The deferred function replaces the result by the error of
    [f.Close()] when there is one. *)
Definition RestoreFromFile (tool : Tool) (max : Z) (clean : string -> string)
    (open : string -> openOutcome) (s : set.set) (filename : string)
    (exist : list bool) (log : list invocation) : option string * list invocation :=
  match open (clean filename) with
  | OpenError e => (Some e, log)
  | Opened r closeErr =>
      let (err, log') := Restore tool max s r exist log in
      (match closeErr with
       | Some e => Some e
       | None => err
       end, log')
  end.

(** ** Further notions used to state the properties *)

(** The positional tokens of a descriptor. *)
Definition positional (c : cmd) : list string :=
  if isTwoArgs c then [action c; name c] else [action c; name c; entry c].

(** The flag tokens of a descriptor for the options [opts]. *)
Definition flags (c : cmd) (opts : list Option) : list string :=
  flat_map (segment c (apply Options.zero opts)) categoryOrder.

(** Lines put together, each followed by a newline. *)
Fixpoint joinLines (ls : list string) : string :=
  match ls with
  | [] => EmptyString
  | l :: ls' => (l ++ String nl (joinLines ls'))%string
  end.

(** Every byte is a decimal digit. *)
Fixpoint allDigits (s : string) : bool :=
  match s with
  | EmptyString => true
  | String c s' => ((48 <=? N_of_ascii c) && (N_of_ascii c <=? 57))%N && allDigits s'
  end.

(** The number a decimal numeral denotes, read from its most significant
    digit with [acc] as the value read so far. *)
Fixpoint digitsValue (d : Decimal.uint) (acc : N) : N :=
  match d with
  | Decimal.Nil => acc
  | Decimal.D0 l => digitsValue l (acc * 10)
  | Decimal.D1 l => digitsValue l (acc * 10 + 1)
  | Decimal.D2 l => digitsValue l (acc * 10 + 2)
  | Decimal.D3 l => digitsValue l (acc * 10 + 3)
  | Decimal.D4 l => digitsValue l (acc * 10 + 4)
  | Decimal.D5 l => digitsValue l (acc * 10 + 5)
  | Decimal.D6 l => digitsValue l (acc * 10 + 6)
  | Decimal.D7 l => digitsValue l (acc * 10 + 7)
  | Decimal.D8 l => digitsValue l (acc * 10 + 8)
  | Decimal.D9 l => digitsValue l (acc * 10 + 9)
  end%N.

(** A line the scanner returns as it is: no newline inside, short enough for
    the scanner's buffer, and no carriage return at its end. *)
Definition plainLine (l : string) : Prop :=
  noNewline l = true
  /\ (Z.of_nat (String.length l) < MaxScanTokenSize)%Z
  /\ dropCR l = l.

(** The text of a listing as the tool prints it (the shape of the fixture
    [listInfo] of the tests): labelled header lines, the members marker, and
    one line per entry. *)
Definition listingLines (nm ty : string) (rev : N) (hdr : string) (size refs : N)
    (entries : list string) : list string :=
  [("Name: " ++ nm)%string; ("Type: " ++ ty)%string;
   ("Revision: " ++ i2str rev)%string; ("Header: " ++ hdr)%string;
   ("Size in memory: " ++ i2str size)%string;
   ("References: " ++ i2str refs)%string;
   ("Number of entries: " ++ i2str (N.of_nat (List.length entries)))%string;
   "Members:"] ++ entries.

(** ** The output buffer as shared memory

    [cmd.out] is a slice: a view of a backing array that [putCmd] keeps
    ([c.out = c.out[:0]]) and that the reader [set.Save] returns goes on
    reading ([bytes.NewReader(c.out)] does not copy). Where that sharing
    matters the descriptor is modelled with its buffer in a heap of arrays. *)

Module Shared.

(** A backing array, as long as its capacity, and the heap of arrays. *)
Definition array := list ascii.
Definition heap := list array.

(** A slice that starts at the beginning of its array; [base = None] is the
    nil slice. *)
Record slice : Type := mkSlice { base : option nat; len : nat; cap : nat }.

Definition nilSlice : slice := mkSlice None 0 0.

(** The bytes a slice shows. *)
Definition contents (h : heap) (s : slice) : list ascii :=
  match base s with
  | None => []
  | Some a => firstn (len s) (nth a h [])
  end.

(** The heap with the array at address [a] replaced. *)
Definition store (h : heap) (a : nat) (arr : array) : heap :=
  firstn a h ++ arr :: skipn (S a) h.

(** [copy(arr[off:], data)] for data that fits. *)
Definition writeAt (arr : array) (off : nat) (data : list ascii) : array :=
  firstn off arr ++ data ++ skipn (off + List.length data) arr.

(** [append(s, data...)]: in place when the capacity suffices, otherwise into
    a new array whose capacity [grow] chooses (at least the length needed). *)
Definition append (grow : nat -> nat -> nat) (h : heap) (s : slice)
    (data : list ascii) : heap * slice :=
  let n := (len s + List.length data)%nat in
  if (n <=? cap s)%nat then
    match base s with
    | Some a => (store h a (writeAt (nth a h []) (len s) data), mkSlice (Some a) n (cap s))
    | None => (h, s)
    end
  else
    let c := grow (cap s) n in
    (h ++ [contents h s ++ data ++ repeat "000"%char (c - n)],
     mkSlice (Some (List.length h)) n c).

(** The descriptor of the argument compiler, which does not look at [out]. *)
Definition descriptor : Type := cmd.
Definition mkDescriptor := mkCmd.

(** [cmd] with its output buffer as a slice. *)
Record cmd : Type := mkCmd {
  action : string;
  name : string;
  entry : string;
  setType : SetType;
  out : slice
}.

Definition fields (c : cmd) : descriptor :=
  mkDescriptor (action c) (name c) (entry c) (setType c) EmptyString.

(** [&cmd{}]: the buffer is the nil slice. *)
Definition zeroCmd : cmd := mkCmd "" "" "" "" nilSlice.

(** [getCmd]. *)
Definition getCmd (action' name' : string) (setType' : SetType) (entry' : list string)
    (pick : nat) (pool : list cmd) : cmd * list cmd :=
  let (c, pool') := poolGet zeroCmd pick pool in
  let e := match entry' with e0 :: _ => e0 | [] => entry c end in
  (mkCmd action' name' e setType' (out c), pool').

(** [putCmd]: [c.out = c.out[:0]] keeps the array and its capacity. *)
Definition putCmd (c : cmd) (pool : list cmd) : list cmd :=
  poolPut (mkCmd (action c) (name c) (entry c) (setType c)
                 (mkSlice (base (out c)) 0 (cap (out c)))) pool.

(** [cmd.exec]; the last component is the heap afterwards. *)
Definition exec (grow : nat -> nat -> nat) (run : Adapter) (c : cmd)
    (opts : list Option) (pick : nat) (pool : list options) (h : heap)
    : cmd * option string * list options * heap :=
  let (args, pool') := buildArgs (fields c) opts pick pool in
  let r := run args in
  if failed r then
    if isTwoArgs (fields c) then
      (c, Some ("ipset: can't " ++ action c ++ " " ++ name c ++ ": " ++ output r)%string,
       pool', h)
    else
      (c, Some ("ipset: can't " ++ action c ++ " " ++ name c ++ " " ++ entry c
                ++ ": " ++ output r)%string, pool', h)
  else if needResolve (fields c) then
    let (h', o) := append grow h (out c) (list_ascii_of_string (output r)) in
    (mkCmd (action c) (name c) (entry c) (setType c) o, None, pool', h')
  else (c, None, pool', h).

(** [set.Save]: the reader is the slice [c.out] as it is when Save returns. *)
Definition Save (grow : nat -> nat -> nat) (run : Adapter) (s : set.set)
    (opts : list Option) (pickCmd pickOpt : nat) (cmds : list cmd)
    (pool : list options) (h : heap)
    : option slice * option string * list cmd * list options * heap :=
  let (c, cmds1) := getCmd _save (set.name s) (set.setType s) [] pickCmd cmds in
  let '(c', err, pool', h') := exec grow run c opts pickOpt pool h in
  match err with
  | Some e => (None, Some e, putCmd c' cmds1, pool', h')
  | None => (Some (out c'), None, putCmd c' cmds1, pool', h')
  end.

End Shared.

(** * Properties *)

(** ** The options pool *)

Lemma poolGet_Forall {A : Type} (P : A -> Prop) (new : A) :
  P new -> forall pool pick, Forall P pool ->
  P (fst (poolGet new pick pool)) /\ Forall P (snd (poolGet new pick pool)).
Proof.
  intros Hnew pool.
  induction pool as [|x pool IH]; intros pick Hall.
  - destruct pick; simpl; auto.
  - inversion Hall as [|? ? Hx Hrest]; subst.
    destruct pick as [|k]; simpl.
    + auto.
    + specialize (IH k Hrest).
      destruct (poolGet new k pool) as [y q]; simpl in *.
      destruct IH; auto.
Qed.

Lemma call_zero_all (o : options) :
  call (PortRange "") (call (IpRange "") (call (ListSize 0) (call (Markmask 0)
  (call (Netmask 0) (call (Forceadd false) (call (Nomatch false)
  (call (Family "") (call (MaxElem 0) (call (HashSize 0) (call (Skbqueue 0)
  (call (Skbprio "") (call (Skbmark "") (call (Skbinfo false)
  (call (CommentContent "") (call (Comment false) (call (Bytes 0)
  (call (Packets 0) (call (Counters false) (call (Resolve false)
  (call (Exist false) (call (Timeout 0) o)))))))))))))))))))))
  = Options.zero.
Proof. destruct o; reflexivity. Qed.

Lemma releaseOptions_eq (o : options) (pool : list options) :
  releaseOptions o pool = Options.zero :: pool.
Proof.
  unfold releaseOptions, poolPut. cbv zeta. rewrite call_zero_all. reflexivity.
Qed.

Lemma acquireOptions_zero (pick : nat) (pool : list options) :
  Forall (eq Options.zero) pool ->
  fst (acquireOptions pick pool) = Options.zero
  /\ Forall (eq Options.zero) (snd (acquireOptions pick pool)).
Proof.
  intros H. unfold acquireOptions.
  destruct (poolGet_Forall (eq Options.zero) Options.zero eq_refl pool pick H).
  split; auto.
Qed.

(** ** The argument compiler in table form *)

Lemma appendIf_app (g : bool) (args toks : list string) :
  appendIf g args toks = args ++ (if g then toks else []).
Proof. destruct g; simpl; [reflexivity | now rewrite app_nil_r]. Qed.

Lemma appendOptions_segments (c : cmd) (o : options) (args : list string) :
  appendOptions c o args = args ++ flat_map (segment c o) categoryOrder.
Proof.
  unfold appendOptions. cbv zeta.
  rewrite !appendIf_app.
  unfold categoryOrder, flat_map, segment.
  cbv beta iota delta [isSet guard flagOf valueOf].
  rewrite <- !app_assoc, app_nil_r.
  reflexivity.
Qed.

Lemma appendArgs_fst (c : cmd) (args : list string) (opts : list Option)
    (pick : nat) (pool : list options) :
  Forall (eq Options.zero) pool ->
  fst (appendArgs c args opts pick pool)
  = args ++ flat_map (segment c (apply Options.zero opts)) categoryOrder.
Proof.
  intros Hpool. unfold appendArgs.
  destruct (acquireOptions_zero pick pool Hpool) as [Hz _].
  destruct (acquireOptions pick pool) as [o0 pool1]; simpl in Hz; subst o0.
  simpl. apply appendOptions_segments.
Qed.

Lemma appendArgs_snd (c : cmd) (args : list string) (opts : list Option)
    (pick : nat) (pool : list options) :
  Forall (eq Options.zero) pool ->
  Forall (eq Options.zero) (snd (appendArgs c args opts pick pool)).
Proof.
  intros Hpool. unfold appendArgs.
  destruct (acquireOptions_zero pick pool Hpool) as [_ Hrest].
  destruct (acquireOptions pick pool) as [o0 pool1]; simpl in *.
  rewrite releaseOptions_eq. constructor; auto.
Qed.

Lemma flat_map_only {A B : Type} (f : A -> list B) (x : A) (l : list A) :
  NoDup l -> In x l -> (forall y, y <> x -> f y = []) -> flat_map f l = f x.
Proof.
  intros Hnd Hin Hother.
  induction l as [|y l IH]; [contradiction|].
  inversion Hnd as [|? ? Hnotin Hnd']; subst. simpl.
  destruct Hin as [->|Hin].
  - assert (Hnil : flat_map f l = []).
    { clear IH Hnd Hnd'. induction l as [|z l IHl]; [reflexivity|]. simpl.
      rewrite Hother.
      - apply IHl. intros Hin. apply Hnotin. now right.
      - intros ->. apply Hnotin. now left. }
    rewrite Hnil. apply app_nil_r.
  - rewrite Hother.
    + simpl. now apply IH.
    + intros ->. contradiction.
Qed.

Lemma categoryOrder_complete (k : Category) : In k categoryOrder.
Proof. destruct k; simpl; tauto. Qed.

Lemma categoryOrder_NoDup : NoDup categoryOrder.
Proof.
  unfold categoryOrder.
  repeat (constructor; [simpl; intuition discriminate|]).
  constructor.
Qed.

Lemma isSet_call_other (m : Option) (k : Category) :
  k <> categoryOf m -> isSet k (call m Options.zero) = false.
Proof. destruct m, k; intros H; try reflexivity; now elim H. Qed.

Lemma isSet_call_own (m : Option) :
  isSet (categoryOf m) (call m Options.zero) = supplied m.
Proof. destruct m; reflexivity. Qed.

Lemma segments_single (c : cmd) (m : Option) :
  flat_map (segment c (call m Options.zero)) categoryOrder
  = if supplied m && guard (categoryOf m) c
    then flagOf (categoryOf m) :: valueOf (categoryOf m) (call m Options.zero)
    else [].
Proof.
  rewrite (flat_map_only _ (categoryOf m)).
  - unfold segment. now rewrite isSet_call_own.
  - apply categoryOrder_NoDup.
  - apply categoryOrder_complete.
  - intros k Hk. unfold segment. now rewrite isSet_call_other.
Qed.

Lemma guard_depends (k : Category) (a n e : string) (st : SetType) (ob : string) :
  guard k (mkCmd a n e st ob) = guard k (mkCmd a "" "" st "").
Proof. destruct k; reflexivity. Qed.

Lemma guard_spec_legal (a : string) (st : SetType) (k : Category)
    (n e ob : string) :
  In a testActions -> In st testSetTypes ->
  guard k (mkCmd a n e st ob) = spec_legal k a st.
Proof.
  intros Ha Hst. rewrite guard_depends.
  assert (H : matrixAgrees = true) by (vm_compute; reflexivity).
  unfold matrixAgrees in H.
  rewrite forallb_forall in H. specialize (H a Ha).
  rewrite forallb_forall in H. specialize (H st Hst).
  rewrite forallb_forall in H. specialize (H k (categoryOrder_complete k)).
  now apply Bool.eqb_prop in H.
Qed.

Lemma notSentinel_supplied (m : Option) :
  notSentinel m = false -> supplied m = false.
Proof.
  destruct m; simpl; intros H; try exact H;
    try (apply negb_false_iff in H; apply N.eqb_eq in H; subst; reflexivity).
  apply negb_false_iff in H. apply Z.eqb_eq in H. subst. reflexivity.
Qed.

(** C1 (as amended). For each of the eleven actions, each of the sixteen set
    types and each option applied on its own, the tokens [appendArgs] produces
    contain the category's flag exactly when the table of the specification
    makes the category legal for the pair and the value passes the test of
    the code: true flag, non-empty string, non-zero count, and a strictly
    positive duration for the timeout. An option that carries its unset
    sentinel appends nothing at all. For any list of options, each category
    contributes its flag and value exactly when it is legal and its field
    passes the test. *)
Theorem appendArgs_flag_iff_legal_and_supplied :
  forall (a : string) (st : SetType) (n e ob : string) (m : Option)
         (pick : nat) (pool : list options),
    In a testActions -> In st testSetTypes -> Forall (eq Options.zero) pool ->
    (In (flagOf (categoryOf m))
        (fst (appendArgs (mkCmd a n e st ob) [] [m] pick pool))
     <-> spec_legal (categoryOf m) a st = true /\ supplied m = true)
    /\ (notSentinel m = false ->
        forall args, fst (appendArgs (mkCmd a n e st ob) args [m] pick pool) = args)
    /\ (forall (opts : list Option) (args : list string),
          fst (appendArgs (mkCmd a n e st ob) args opts pick pool)
          = args ++ flat_map (fun k =>
                       if isSet k (apply Options.zero opts) && spec_legal k a st
                       then flagOf k :: valueOf k (apply Options.zero opts)
                       else [])
                     categoryOrder).
Proof.
  intros a st n e ob m pick pool Ha Hst Hpool.
  split; [|split].
  - rewrite appendArgs_fst by assumption.
    change (apply Options.zero [m]) with (call m Options.zero).
    rewrite segments_single, app_nil_l.
    rewrite (guard_spec_legal a st (categoryOf m) n e ob Ha Hst).
    destruct (supplied m), (spec_legal (categoryOf m) a st); simpl;
      intuition discriminate.
  - intros Hs args.
    rewrite appendArgs_fst by assumption.
    change (apply Options.zero [m]) with (call m Options.zero).
    rewrite segments_single.
    rewrite (notSentinel_supplied m Hs). simpl. apply app_nil_r.
  - intros opts args. rewrite appendArgs_fst by assumption.
    f_equal. apply flat_map_ext. intros k. unfold segment.
    now rewrite (guard_spec_legal a st k n e ob Ha Hst).
Qed.

Lemma appendArgs_flag_iff_legal_and_supplied_witness :
  In _create testActions /\ In HashIp testSetTypes
  /\ Forall (eq Options.zero) (@nil options)
  /\ (In _timeout
         (fst (appendArgs (mkCmd _create "test" "hash:ip" HashIp "") []
                          [Timeout 1000000000] 0 []))
      <-> spec_legal CTimeout _create HashIp = true
          /\ supplied (Timeout 1000000000) = true).
Proof.
  assert (Ha : In _create testActions) by (simpl; tauto).
  assert (Hst : In HashIp testSetTypes) by (simpl; tauto).
  split; [exact Ha|]. split; [exact Hst|]. split; [constructor|].
  exact (proj1 (appendArgs_flag_iff_legal_and_supplied
                  _create HashIp "test" "hash:ip" "" (Timeout 1000000000) 0 []
                  Ha Hst (Forall_nil _))).
Defined.

(** C1 as stated fails: a negative timeout is not the zero sentinel and the
    timeout category is legal for (create, hash:ip), yet no token is
    produced. *)
Lemma appendArgs_negative_timeout_counterexample :
  In _create testActions /\ In HashIp testSetTypes
  /\ spec_legal (categoryOf (Timeout (-1000000000))) _create HashIp = true
  /\ notSentinel (Timeout (-1000000000)) = true
  /\ ~ In (flagOf (categoryOf (Timeout (-1000000000))))
          (fst (appendArgs (mkCmd _create "test" "hash:ip" HashIp "") []
                           [Timeout (-1000000000)] 0 [])).
Proof.
  split; [simpl; tauto|]. split; [simpl; tauto|].
  split; [reflexivity|]. split; [reflexivity|].
  vm_compute. tauto.
Qed.

(** C2. [buildArgs] puts the positional tokens first, [action, name] for
    list, save, destroy and flush and [action, name, entry] for every other
    action, and then the tokens of the categories in the fixed order:
    timeout, exist, resolve, counters, packets, bytes, comment flag, comment
    content, skbinfo, skbmark, skbprio, skbqueue, nomatch, forceadd, family,
    hashsize, maxelem, netmask, markmask, list size, ip range, port range.
    Each category contributes nothing or its flag followed by its value. *)
Theorem buildArgs_positional_then_ordered_flags :
  forall (c : cmd) (opts : list Option) (pick : nat) (pool : list options),
    Forall (eq Options.zero) pool ->
    let o := apply Options.zero opts in
    let flags :=
      flat_map (segment c o)
        [CTimeout; CExist; CResolve; CCounters; CPackets; CBytes; CCommentFlag;
         CCommentContent; CSkbinfo; CSkbmark; CSkbprio; CSkbqueue; CNomatch;
         CForceadd; CFamily; CHashsize; CMaxelem; CNetmask; CMarkmask;
         CListSize; CIpRange; CPortRange] in
    (In (action c) [_list; _save; _destroy; _flush] ->
     fst (buildArgs c opts pick pool) = [action c; name c] ++ flags)
    /\ (~ In (action c) [_list; _save; _destroy; _flush] ->
        fst (buildArgs c opts pick pool) = [action c; name c; entry c] ++ flags)
    /\ (forall k, segment c o k = [] \/ segment c o k = flagOf k :: valueOf k o).
Proof.
  intros c opts pick pool Hpool o flags.
  assert (Htwo : isTwoArgs c = true <-> In (action c) [_list; _save; _destroy; _flush]).
  { unfold isTwoArgs. rewrite !orb_true_iff, !String.eqb_eq. simpl.
    intuition congruence. }
  repeat split.
  - intros Hin. apply Htwo in Hin.
    unfold buildArgs. rewrite Hin. simpl negb. cbv iota zeta.
    now rewrite appendArgs_fst.
  - intros Hnot.
    assert (Hf : isTwoArgs c = false).
    { destruct (isTwoArgs c); [exfalso; apply Hnot, Htwo; reflexivity | reflexivity]. }
    unfold buildArgs. rewrite Hf. simpl negb. cbv iota zeta.
    now rewrite appendArgs_fst.
  - intros k. unfold segment. destruct (isSet k o && guard k c); auto.
Qed.

Lemma buildArgs_positional_then_ordered_flags_witness :
  Forall (eq Options.zero) (@nil options)
  /\ fst (buildArgs (mkCmd _create "test" "hash:ip" HashIp "")
                    [Family "inet"; Exist true; Timeout 3600000000000] 0 [])
     = ["create"; "test"; "hash:ip"; "timeout"; "3600"; "-exist"; "family"; "inet"].
Proof.
  split; [constructor|].
  destruct (buildArgs_positional_then_ordered_flags
              (mkCmd _create "test" "hash:ip" HashIp "")
              [Family "inet"; Exist true; Timeout 3600000000000] 0 []
              (Forall_nil _)) as [_ [H _]].
  rewrite H.
  - vm_compute. reflexivity.
  - simpl. intuition discriminate.
Defined.

(** ** Membership test and failure wrapping *)

Lemma prefix_app (p s : string) :
  String.prefix p s = true <-> exists post, s = (p ++ post)%string.
Proof.
  revert s. induction p as [|a p IH]; intros s.
  - split; [intros _; now exists s | intros _; destruct s; reflexivity].
  - destruct s as [|b s]; simpl.
    + split; [discriminate | intros [post H]; discriminate].
    + destruct (ascii_dec a b) as [->|Hne].
      * rewrite IH. split; intros [post H]; exists post.
        -- now rewrite H.
        -- now inversion H.
      * split; [discriminate | intros [post H]; inversion H; congruence].
Qed.

Lemma Contains_occursIn (b sub : string) :
  Contains b sub = true <-> occursIn sub b.
Proof.
  unfold occursIn. induction b as [|a b IH].
  - change (Contains EmptyString sub) with (String.prefix sub EmptyString || false).
    rewrite orb_false_r, prefix_app. split.
    + intros [post H]. now exists EmptyString, post.
    + intros [pre [post H]]. destruct pre; [now exists post | discriminate].
  - change (Contains (String a b) sub)
      with (String.prefix sub (String a b) || Contains b sub).
    rewrite orb_true_iff, prefix_app, IH. split.
    + intros [[post H] | [pre [post H]]].
      * now exists EmptyString, post.
      * exists (String a pre), post. simpl. now rewrite H.
    + intros [pre [post H]]. destruct pre as [|a' pre].
      * left. now exists post.
      * right. exists pre, post. simpl in H. now inversion H.
Qed.

Lemma Test_unfold (run : Adapter) (s : set.set) (entry : string) :
  Test run s entry =
  let r := run [_test; set.name s; entry] in
  if failed r then
    if Contains (output r) notFlag then (false, None)
    else (false, Some ("ipset: can't test " ++ set.name s ++ " " ++ entry ++ ": "
                       ++ output r)%string)
  else (true, None).
Proof. reflexivity. Qed.

(** C3. [set.Test] answers (true, nil) when the tool succeeds, (false, nil)
    when it fails and its output contains "NOT", and (false, err) for every
    other failure, where err carries the message
    "ipset: can't test <name> <entry>: <output>". *)
Theorem Test_three_outcomes :
  forall (run : Adapter) (s : set.set) (entry : string),
    let r := run ["test"; set.name s; entry] in
    (failed r = false -> Test run s entry = (true, None))
    /\ (failed r = true -> occursIn "NOT" (output r) ->
        Test run s entry = (false, None))
    /\ (failed r = true -> ~ occursIn "NOT" (output r) ->
        Test run s entry =
        (false, Some ("ipset: can't test " ++ set.name s ++ " " ++ entry ++ ": "
                      ++ output r)%string)).
Proof.
  intros run s entry r. rewrite Test_unfold.
  change (run [_test; set.name s; entry]) with r. cbv zeta.
  clearbody r. destruct r as [o f]. simpl.
  repeat split.
  - intros ->. reflexivity.
  - intros -> Hin. apply Contains_occursIn in Hin.
    unfold notFlag. now rewrite Hin.
  - intros -> Hnot.
    destruct (Contains o notFlag) eqn:Hc; [|reflexivity].
    exfalso. apply Hnot. now apply Contains_occursIn.
Qed.

Lemma Test_three_outcomes_witness :
  occursIn "NOT" "1.1.1.2 is NOT in set foo."
  /\ Test (failingRun "1.1.1.2 is NOT in set foo.") (set.mk "test" HashIp) "1.1.1.2"
     = (false, None).
Proof.
  assert (H : occursIn "NOT" "1.1.1.2 is NOT in set foo.").
  { exists "1.1.1.2 is ", " in set foo.". reflexivity. }
  split; [exact H|].
  exact (proj1 (proj2 (Test_three_outcomes
                         (failingRun "1.1.1.2 is NOT in set foo.")
                         (set.mk "test" HashIp) "1.1.1.2")) eq_refl H).
Defined.




(** ** The reuse pools *)

(** C7 (as amended). Releasing a modifier set resets all of its twenty-two
    fields, so an instance taken from the options pool holds only sentinel
    values. Releasing a command descriptor empties its output buffer and
    nothing else; its action, name and set type are overwritten every time it
    is acquired, with or without an entry, and so is its entry when the
    acquirer supplies one. *)
Theorem pools_reset_on_release :
  (forall (o : options) (pool : list options),
     releaseOptions o pool =
     Options.mk false false 0%Z false 0%N 0%N false "" false "" "" 0%N 0%N 0%N ""
                false false "" "" 0%N 0%N 0%N :: pool)
  /\ (forall (o : options) (pool : list options) (pick : nat),
        Forall (eq Options.zero) pool ->
        fst (acquireOptions pick (releaseOptions o pool)) = Options.zero
        /\ Forall (eq Options.zero) (snd (acquireOptions pick (releaseOptions o pool))))
  /\ (forall (c : cmd) (pool : list cmd),
        putCmd c pool = mkCmd (action c) (name c) (entry c) (setType c) "" :: pool)
  /\ (forall (c : cmd) (pool : list cmd) (pick : nat) (a n : string)
             (st : SetType) (es : list string),
        Forall (fun c' => out c' = "") pool ->
        action (fst (getCmd a n st es pick (putCmd c pool))) = a
        /\ name (fst (getCmd a n st es pick (putCmd c pool))) = n
        /\ setType (fst (getCmd a n st es pick (putCmd c pool))) = st
        /\ out (fst (getCmd a n st es pick (putCmd c pool))) = ""
        /\ (forall (e : string) (es' : list string),
              es = e :: es' ->
              fst (getCmd a n st es pick (putCmd c pool)) = mkCmd a n e st "")
        /\ Forall (fun c' => out c' = "")
                  (snd (getCmd a n st es pick (putCmd c pool)))).
Proof.
  split; [intros o pool; apply releaseOptions_eq|].
  split.
  { intros o pool pick Hp.
    apply acquireOptions_zero. rewrite releaseOptions_eq. now constructor. }
  split; [reflexivity|].
  intros c pool pick a n st es Hp.
  assert (Hall : Forall (fun c' => out c' = "") (putCmd c pool))
    by (unfold putCmd, poolPut; constructor; [reflexivity | assumption]).
  unfold getCmd.
  destruct (poolGet_Forall (fun c' => out c' = "") zeroCmd eq_refl
              (putCmd c pool) pick Hall) as [Hout Hrest].
  destruct (poolGet zeroCmd pick (putCmd c pool)) as [c0 pool'].
  cbn [fst snd] in *.
  repeat split; try reflexivity; try assumption.
  intros e es' ->. now rewrite Hout.
Qed.

Lemma pools_reset_on_release_witness :
  Forall (fun c' => out c' = "") (@nil cmd)
  /\ action (fst (getCmd _list "foo" HashNet [] 0
                    (putCmd (mkCmd _add "test" "1.1.1.1" HashIp "x") []))) = _list
  /\ name (fst (getCmd _list "foo" HashNet [] 0
                  (putCmd (mkCmd _add "test" "1.1.1.1" HashIp "x") []))) = "foo"
  /\ setType (fst (getCmd _list "foo" HashNet [] 0
                     (putCmd (mkCmd _add "test" "1.1.1.1" HashIp "x") []))) = HashNet
  /\ out (fst (getCmd _list "foo" HashNet [] 0
                 (putCmd (mkCmd _add "test" "1.1.1.1" HashIp "x") []))) = ""
  /\ fst (getCmd _del "foo" HashNet ["2.2.2.2"] 0
            (putCmd (mkCmd _add "test" "1.1.1.1" HashIp "x") []))
     = mkCmd _del "foo" "2.2.2.2" HashNet "".
Proof.
  split; [constructor|].
  destruct (proj2 (proj2 (proj2 pools_reset_on_release))
              (mkCmd _add "test" "1.1.1.1" HashIp "x") [] 0 _list "foo" HashNet []
              (Forall_nil _)) as [Ha [Hn [Ht [Ho _]]]].
  split; [exact Ha|]. split; [exact Hn|]. split; [exact Ht|]. split; [exact Ho|].
  destruct (proj2 (proj2 (proj2 pools_reset_on_release))
              (mkCmd _add "test" "1.1.1.1" HashIp "x") [] 0 _del "foo" HashNet
              ["2.2.2.2"] (Forall_nil _)) as [_ [_ [_ [_ [He _]]]]].
  exact (He "2.2.2.2" [] eq_refl).
Defined.

(** C7 as stated fails for the command pool: a descriptor that is released
    and handed out again still holds the action, name, entry and set type of
    the previous borrower, and [getCmd] without an entry passes the earlier
    entry on. *)
Lemma putCmd_keeps_fields_counterexample :
  fst (poolGet zeroCmd 0 (putCmd (mkCmd _add "test" "1.1.1.1" HashIp "x") []))
  = mkCmd "add" "test" "1.1.1.1" "hash:ip" ""
  /\ fst (poolGet zeroCmd 0 (putCmd (mkCmd _add "test" "1.1.1.1" HashIp "x") []))
     <> zeroCmd
  /\ entry (fst (getCmd _list "foo" HashNet [] 0
                   (putCmd (mkCmd _add "test" "1.1.1.1" HashIp "x") [])))
     = "1.1.1.1".
Proof.
  split; [reflexivity|]. split; [discriminate | reflexivity].
Qed.

(** ** The listing parser *)

Lemma parseLines_app (pre : list string) :
  forall (info info' : Info) (l : list string) (late : option string),
    parseLines info pre None = Ok info' ->
    Forall (fun t => HasPrefix t "M" = false) pre ->
    parseLines info (pre ++ l) late = parseLines info' l late.
Proof.
  induction pre as [|t pre IH]; intros info info' l late Hok Hm.
  - simpl in *. now inversion Hok.
  - inversion Hm as [|? ? Ht Hrest]; subst.
    simpl in Hok |- *.
    destruct (HasPrefix t "Rev").
    { destruct (getNumber t) as [n [e|]]; [discriminate | now apply IH]. }
    destruct (HasPrefix t "H").
    { destruct (String.length t <? 8)%nat; [discriminate | now apply IH]. }
    destruct (HasPrefix t "S").
    { destruct (getNumber t) as [n [e|]]; [discriminate | now apply IH]. }
    destruct (HasPrefix t "Ref").
    { destruct (getNumber t) as [n [e|]]; [discriminate | now apply IH]. }
    rewrite Ht in Hok |- *. now apply IH.
Qed.

Lemma parseLines_numeric (t : string) (setf : Info -> Z -> Info) :
  numericField t = Some setf ->
  forall (info : Info) (rest : list string) (late : option string),
    parseLines info (t :: rest) late =
    match getNumber t with
    | (n, None) => parseLines (setf info n) rest late
    | (_, Some e) => Error e
    end.
Proof.
  unfold numericField. intros H info rest late. simpl.
  destruct (HasPrefix t "Rev"); [now inversion H|].
  destruct (HasPrefix t "H"); [discriminate|].
  destruct (HasPrefix t "S"); [now inversion H|].
  destruct (HasPrefix t "Ref"); [now inversion H | discriminate].
Qed.

Lemma LastIndexByte_None (t : string) :
  LastIndexByte t space = None -> noSpace t = true.
Proof.
  induction t as [|a t IH]; simpl; [reflexivity|].
  destruct (LastIndexByte t space); [discriminate|].
  destruct (Ascii.eqb a space); [discriminate|].
  intros _. now rewrite IH.
Qed.

Lemma sliceFrom_0 (t : string) : sliceFrom t 0 = t.
Proof. destruct t; reflexivity. Qed.

Lemma LastIndexByte_Some (t : string) :
  forall i, LastIndexByte t space = Some i ->
  exists pre, t = (pre ++ String space (sliceFrom t (i + 1)))%string
              /\ String.length pre = i
              /\ noSpace (sliceFrom t (i + 1)) = true.
Proof.
  induction t as [|a t IH]; intros i H; simpl in H; [discriminate|].
  destruct (LastIndexByte t space) as [j|] eqn:Hl.
  - inversion H; subst i. destruct (IH j eq_refl) as [pre [Ht [Hlen Hns]]].
    exists (String a pre). replace (S j + 1)%nat with (S (j + 1)) by lia.
    simpl. repeat split; [now rewrite <- Ht | now rewrite Hlen | exact Hns].
  - destruct (Ascii.eqb a space) eqn:Ha; [|discriminate].
    inversion H; subst i. apply Ascii.eqb_eq in Ha. subst a.
    exists EmptyString. simpl. rewrite sliceFrom_0.
    repeat split. now apply LastIndexByte_None.
Qed.

(** C8 (as amended). A header line of one of the three numeric cases
    (prefix "Rev", "S" or "Ref") that the header loop reaches has its value
    parsed from the text after its last space: a valid integer is stored in
    the field, anything else makes [parseInfo] return the error of the
    conversion. A line with no space at all is not an error: its field is
    set to zero. *)
Theorem parseInfo_numeric_line :
  forall (out : string) (pre : list string) (t : string) (rest : list string)
         (late : option string) (info' : Info) (setf : Info -> Z -> Info),
    scanLines out = (pre ++ t :: rest, late) ->
    parseLines zeroInfo pre None = Ok info' ->
    Forall (fun l => HasPrefix l "M" = false) pre ->
    numericField t = Some setf ->
    (forall i, LastIndexByte t space = Some i ->
       lastToken t = sliceFrom t (i + 1)
       /\ noSpace (lastToken t) = true
       /\ exists before, t = (before ++ String space (lastToken t))%string)
    /\ (forall i n, LastIndexByte t space = Some i ->
          Atoi (lastToken t) = (n, None) ->
          parseInfo out = parseLines (setf info' n) rest late)
    /\ (forall i n e, LastIndexByte t space = Some i ->
          Atoi (lastToken t) = (n, Some e) ->
          parseInfo out = Error e)
    /\ (LastIndexByte t space = None ->
          parseInfo out = parseLines (setf info' 0%Z) rest late).
Proof.
  intros out pre t rest late info' setf Hscan Hpre Hm Hnum.
  assert (Hparse : parseInfo out =
                   match getNumber t with
                   | (n, None) => parseLines (setf info' n) rest late
                   | (_, Some e) => Error e
                   end).
  { unfold parseInfo. rewrite Hscan.
    rewrite (parseLines_app pre zeroInfo info' (t :: rest) late Hpre Hm).
    now apply parseLines_numeric. }
  repeat split.
  - unfold lastToken. now rewrite H.
  - unfold lastToken. rewrite H.
    destruct (LastIndexByte_Some t i H) as [p [_ [_ Hns]]]. exact Hns.
  - unfold lastToken. rewrite H.
    destruct (LastIndexByte_Some t i H) as [p [Ht _]]. now exists p.
  - intros i n Hi Ha. rewrite Hparse. unfold getNumber.
    unfold lastToken in Ha. rewrite Hi in Ha |- *. now rewrite Ha.
  - intros i n e Hi Ha. rewrite Hparse. unfold getNumber.
    unfold lastToken in Ha. rewrite Hi in Ha |- *. now rewrite Ha.
  - intros Hi. rewrite Hparse. unfold getNumber. now rewrite Hi.
Qed.

Lemma parseInfo_numeric_line_witness :
  scanLines ("Name: foo" ++ String nl "Revision: x" ++ String nl "Members:")
  = (["Name: foo"] ++ "Revision: x" :: ["Members:"], None)
  /\ parseLines zeroInfo ["Name: foo"] None = Ok zeroInfo
  /\ Forall (fun l => HasPrefix l "M" = false) ["Name: foo"]
  /\ numericField "Revision: x" = Some setRevision
  /\ parseInfo ("Name: foo" ++ String nl "Revision: x" ++ String nl "Members:")
     = Error (mkNumError "Atoi" "x" ErrSyntax).
Proof.
  assert (Hs : scanLines ("Name: foo" ++ String nl "Revision: x" ++ String nl "Members:")
               = (["Name: foo"] ++ "Revision: x" :: ["Members:"], None))
    by (vm_compute; reflexivity).
  assert (Hp : parseLines zeroInfo ["Name: foo"] None = Ok zeroInfo) by reflexivity.
  assert (Hm : Forall (fun l => HasPrefix l "M" = false) ["Name: foo"])
    by (constructor; [reflexivity | constructor]).
  assert (Hn : numericField "Revision: x" = Some setRevision) by reflexivity.
  repeat (split; [assumption|]).
  exact (proj1 (proj2 (proj2 (parseInfo_numeric_line _ _ _ _ _ _ _ Hs Hp Hm Hn)))
           9%nat 0%Z (mkNumError "Atoi" "x" ErrSyntax) eq_refl eq_refl).
Defined.

(** C8 as stated fails: the line "Revision:4" is a Revision line whose only
    token is not a valid integer, yet [parseInfo] returns no error and leaves
    the revision at zero. *)
Lemma parseInfo_no_space_counterexample :
  numericField "Revision:4" = Some setRevision
  /\ lastToken "Revision:4" = "Revision:4"
  /\ Atoi (lastToken "Revision:4")
     = (0%Z, Some (mkNumError "Atoi" "Revision:4" ErrSyntax))
  /\ parseInfo ("Revision:4" ++ String nl "") = Ok zeroInfo
  /\ ~ exists e, parseInfo ("Revision:4" ++ String nl "") = Error e.
Proof.
  repeat split; try (vm_compute; reflexivity).
  intros [e H]. vm_compute in H. discriminate.
Qed.

Lemma exec_ok_out (run : Adapter) (c : cmd) (opts : list Option)
    (pick : nat) (pool : list options) (o : string) :
  (forall args, run args = mkExec o false) ->
  needResolve c = true ->
  fst (exec run c opts pick pool)
  = (mkCmd (action c) (name c) (entry c) (setType c) (out c ++ o)%string, None).
Proof.
  intros Hrun Hres. unfold exec.
  destruct (buildArgs c opts pick pool) as [args pool'].
  rewrite Hrun. simpl. now rewrite Hres.
Qed.

(** C10 (as amended). [parseInfo] is not total: when the header loop reaches
    a line that starts with "H" and is shorter than eight bytes, that is a
    line preceded by no line starting with "M" and by no numeric line that
    fails to parse, the slice [t[8:]] is out of range and [parseInfo] panics;
    [set.List] then panics as well. *)
Theorem parseInfo_short_header_panics :
  forall (text : string) (pre : list string) (t : string) (rest : list string)
         (late : option string) (info' : Info),
    scanLines text = (pre ++ t :: rest, late) ->
    parseLines zeroInfo pre None = Ok info' ->
    Forall (fun l => HasPrefix l "M" = false) pre ->
    HasPrefix t "H" = true ->
    (String.length t < 8)%nat ->
    parseInfo text = Panic
    /\ (forall (run : Adapter) (s : set.set) (opts : list Option)
               (pickCmd pickOpt : nat) (cmds : list cmd) (pool : list options),
          (forall args, run args = mkExec text false) ->
          Forall (fun c => out c = "") cmds ->
          fst (fst (List run s opts pickCmd pickOpt cmds pool)) = Panic).
Proof.
  intros text pre t rest late info' Hscan Hpre Hm Hh Hlen.
  assert (Hp : parseInfo text = Panic).
  { unfold parseInfo. rewrite Hscan.
    rewrite (parseLines_app pre zeroInfo info' (t :: rest) late Hpre Hm).
    simpl.
    assert (Hrev : HasPrefix t "Rev" = false).
    { unfold HasPrefix in *. apply prefix_app in Hh.
      destruct Hh as [post ->]. reflexivity. }
    rewrite Hrev, Hh.
    apply Nat.ltb_lt in Hlen. now rewrite Hlen. }
  split; [exact Hp|].
  intros run s opts pickCmd pickOpt cmds pool Hrun Hcmds.
  unfold List.
  pose proof (poolGet_Forall (fun c => out c = "") zeroCmd eq_refl
                cmds pickCmd Hcmds) as [Hout _].
  unfold getCmd.
  destruct (poolGet zeroCmd pickCmd cmds) as [c0 cmds1]. simpl in Hout.
  pose proof (exec_ok_out run
                (mkCmd _list (set.name s) (entry c0) (set.setType s) (out c0))
                opts pickOpt pool text Hrun eq_refl) as He.
  destruct (exec run _ opts pickOpt pool) as [[c' err] pool'].
  simpl in He. inversion He; subst. simpl.
  rewrite Hout. simpl. now rewrite Hp.
Qed.

Lemma parseInfo_short_header_panics_witness :
  scanLines ("Name: foo" ++ String nl "Head") = (["Name: foo"] ++ "Head" :: [], None)
  /\ parseLines zeroInfo ["Name: foo"] None = Ok zeroInfo
  /\ Forall (fun l => HasPrefix l "M" = false) ["Name: foo"]
  /\ HasPrefix "Head" "H" = true
  /\ (String.length "Head" < 8)%nat
  /\ parseInfo ("Name: foo" ++ String nl "Head") = Panic.
Proof.
  assert (Hs : scanLines ("Name: foo" ++ String nl "Head")
               = (["Name: foo"] ++ "Head" :: [], None)) by (vm_compute; reflexivity).
  assert (Hp : parseLines zeroInfo ["Name: foo"] None = Ok zeroInfo) by reflexivity.
  assert (Hm : Forall (fun l => HasPrefix l "M" = false) ["Name: foo"])
    by (constructor; [reflexivity | constructor]).
  assert (Hh : HasPrefix "Head" "H" = true) by reflexivity.
  assert (Hl : (String.length "Head" < 8)%nat) by (simpl; lia).
  repeat (split; [assumption|]).
  exact (proj1 (parseInfo_short_header_panics _ _ _ _ _ _ Hs Hp Hm Hh Hl)).
Defined.

(** C10 as stated fails: the output "Members:" followed by the line "Head"
    contains a line that starts with "H" and is shorter than eight bytes, and
    [parseInfo] returns it as an entry without panicking. *)
Lemma parseInfo_short_header_counterexample :
  In "Head" (fst (scanLines ("Members:" ++ String nl "Head")))
  /\ HasPrefix "Head" "H" = true
  /\ HasPrefix "Head" "Rev" = false
  /\ (String.length "Head" < 8)%nat
  /\ parseInfo ("Members:" ++ String nl "Head")
     = Ok (mkInfo "" "" 0 "" 0 0 ["Head"])
  /\ parseInfo ("Members:" ++ String nl "Head") <> Panic.
Proof.
  repeat split; try (vm_compute; reflexivity).
  - vm_compute. tauto.
  - simpl. lia.
  - vm_compute. discriminate.
Qed.

(** ** The restore streamer *)

Section StringFacts.

Lemma append_nil_r (s : string) : (s ++ "")%string = s.
Proof. induction s as [|a s IH]; simpl; [reflexivity | now rewrite IH]. Qed.

Lemma append_assoc (s1 s2 s3 : string) :
  ((s1 ++ s2) ++ s3)%string = (s1 ++ (s2 ++ s3))%string.
Proof. induction s1 as [|a s1 IH]; simpl; [reflexivity | now rewrite IH]. Qed.

Lemma joined_cons (x : string) (xs : list string) :
  joined (x :: xs) = (x ++ joined xs)%string.
Proof.
  unfold joined. destruct xs as [|y ys]; simpl.
  - now rewrite append_nil_r.
  - reflexivity.
Qed.

Lemma joined_nil : joined [] = EmptyString.
Proof. reflexivity. Qed.

End StringFacts.

Section ReadLines.

Lemma readLines_cons (c : ascii) (rest : string) :
  readLines (String c rest) =
  let (ls, tl) := readLines rest in
  if Ascii.eqb c nl then (String c EmptyString :: ls, tl)
  else match ls with
       | [] => ([], String c tl)
       | l :: ls' => (String c l :: ls', tl)
       end.
Proof. reflexivity. Qed.

(** Reading loses nothing: the lines and the unterminated rest, put
    together, are the content. *)
Lemma readLines_joined (data : string) :
  (joined (fst (readLines data)) ++ snd (readLines data))%string = data.
Proof.
  induction data as [|c rest IH]; [reflexivity|].
  rewrite readLines_cons.
  destruct (readLines rest) as [ls tl]. simpl in IH.
  destruct (Ascii.eqb c nl).
  - simpl fst. simpl snd. rewrite joined_cons. simpl. now rewrite IH.
  - destruct ls as [|l ls'].
    + simpl in *. now rewrite IH.
    + simpl fst. simpl snd. rewrite joined_cons in *. simpl. now rewrite IH.
Qed.

Lemma readLines_terminated (data : string) :
  newlineTerminated data = true -> snd (readLines data) = EmptyString.
Proof.
  induction data as [|c rest IH]; [reflexivity|].
  intros H. rewrite readLines_cons.
  destruct rest as [|c' rest'].
  - simpl in H. simpl. now rewrite H.
  - assert (Hr : newlineTerminated (String c' rest') = true) by exact H.
    specialize (IH Hr).
    pose proof (readLines_joined (String c' rest')) as Hj.
    destruct (readLines (String c' rest')) as [ls tl]. simpl in IH, Hj. subst tl.
    destruct (Ascii.eqb c nl); [reflexivity|].
    destruct ls as [|l ls']; [|reflexivity].
    exfalso. rewrite joined_nil in Hj. discriminate.
Qed.

Lemma readLines_noNewline (t : string) :
  noNewline t = true -> readLines t = ([], t).
Proof.
  induction t as [|c t IH]; [reflexivity|].
  simpl noNewline. intros H. apply andb_true_iff in H. destruct H as [Hc Ht].
  rewrite readLines_cons, (IH Ht).
  apply negb_true_iff in Hc. now rewrite Hc.
Qed.

(** An unterminated tail adds no line. *)
Lemma readLines_tail (p t : string) :
  noNewline t = true ->
  fst (readLines (p ++ t)) = fst (readLines p).
Proof.
  intros Ht. induction p as [|c p IH].
  - simpl. now rewrite readLines_noNewline.
  - simpl append. rewrite !readLines_cons.
    destruct (readLines (p ++ t)) as [ls tl].
    destruct (readLines p) as [ls' tl']. simpl in IH. subst ls'.
    destruct (Ascii.eqb c nl); [reflexivity|].
    destruct ls; reflexivity.
Qed.

End ReadLines.

Section RestoreLoop.

Variable tool : Tool.
Variable max : Z.
Variable exist : list bool.

Lemma chunkRun_nonempty (log : list invocation) (ps : list string)
    (e : option string) :
  chunkRun tool (restoreArgs exist) log ps e -> ps <> [].
Proof. intros H; inversion H; discriminate. Qed.

Lemma chunkRun_all_accepted (log : list invocation) (ps : list string)
    (e : option string) :
  (forall h a b, pipeError (tool h a b) = None) ->
  chunkRun tool (restoreArgs exist) log ps e -> e = None.
Proof. intros Hok H. induction H; auto. Qed.

(** The loop issues the chunks one after the other; what it has sent is a
    prefix of the buffer followed by the lines, and all of it when no chunk
    was rejected. *)
Lemma restoreLoop_run (lines : list string) :
  forall (b : string) (log : list invocation),
  exists (ps : list string) (e : option string),
    restoreLoop tool max exist lines None b log
    = (e, log ++ map (mkInvocation (restoreArgs exist)) ps)
    /\ chunkRun tool (restoreArgs exist) log ps e
    /\ (exists rest, (b ++ joined lines)%string = (joined ps ++ rest)%string)
    /\ (e = None -> joined ps = (b ++ joined lines)%string).
Proof.
  induction lines as [|bb rest IH]; intros b log.
  - exists [b], (pipeError (tool log (restoreArgs exist) b)). simpl.
    repeat split.
    + constructor.
    + exists EmptyString. now rewrite joined_nil.
    + intros _. unfold joined. simpl. now rewrite append_nil_r.
  - simpl.
    destruct (max <? Z.of_nat (String.length b) + Z.of_nat (String.length bb))%Z.
    + unfold restore.
      destruct (pipeError (tool log (restoreArgs exist) b)) as [e|] eqn:He.
      * exists [b], (Some e). simpl. repeat split.
        -- rewrite <- He. constructor.
        -- exists (joined (bb :: rest)). reflexivity.
        -- discriminate.
      * destruct (IH bb (log ++ [mkInvocation (restoreArgs exist) b])) as [ps [e [Hr [Hc [Hp Ha]]]]].
        exists (b :: ps), e. repeat split.
        -- rewrite Hr. simpl. now rewrite <- app_assoc.
        -- now constructor.
        -- destruct Hp as [tl Hp]. exists tl.
           rewrite !joined_cons, append_assoc. now rewrite Hp.
        -- intros Hn. rewrite !joined_cons. now rewrite (Ha Hn).
    + destruct (IH (b ++ bb)%string log) as [ps [e [Hr [Hc [Hp Ha]]]]].
      exists ps, e. repeat split; auto.
      * destruct Hp as [tl Hp]. exists tl.
        rewrite joined_cons, <- append_assoc. exact Hp.
      * intros Hn. rewrite (Ha Hn), joined_cons. apply append_assoc.
Qed.

Lemma payloads_map (ps : list string) :
  payloads (map (mkInvocation (restoreArgs exist)) ps) = ps.
Proof.
  unfold payloads. rewrite map_map. simpl. apply map_id.
Qed.

Lemma Restore_run (s : set.set) (data : string) (log : list invocation) :
  exists (ps : list string) (e : option string),
    Restore tool max s (mkReader data None) exist log
    = (option_map (restoreError s) e, log ++ map (mkInvocation (restoreArgs exist)) ps)
    /\ chunkRun tool (restoreArgs exist) log ps e
    /\ (exists rest, data = (joined ps ++ rest)%string)
    /\ (e = None -> joined ps = joined (fst (readLines data))).
Proof.
  unfold Restore. simpl content. simpl readErr.
  destruct (restoreLoop_run (fst (readLines data)) EmptyString log)
    as [ps [e [Hr [Hc [Hp Ha]]]]].
  exists ps, e. rewrite Hr. repeat split; auto.
  destruct Hp as [tl Hp]. simpl in Hp.
  exists (tl ++ snd (readLines data))%string.
  rewrite <- append_assoc, <- Hp. symmetry. apply readLines_joined.
Qed.

End RestoreLoop.

Lemma chunkRun_accepted (tool : Tool) (args : list string) (log : list invocation)
    (ps : list string) (e : option string) :
  (forall h a b, tool h a b <> WriteError None) ->
  chunkRun tool args log ps e ->
  exists r, acceptedRun tool args log ps r /\ e = pipeError r.
Proof.
  intros Hw H. induction H as [log p | log p ps err Hok Hrun IH].
  - exists (tool log args p). split; [constructor | reflexivity].
  - destruct IH as [r [Hr He]]. exists r. split; [|exact He].
    constructor; [|exact Hr].
    specialize (Hw log args p).
    destruct (tool log args p) as [e0 | [e0|] | e0 | o [|]];
      simpl in Hok |- *; congruence.
Qed.

Lemma acceptedRun_nonempty (tool : Tool) (args : list string) (log : list invocation)
    (ps : list string) (r : pipeOutcome) :
  acceptedRun tool args log ps r -> ps <> [].
Proof. intros H; inversion H; discriminate. Qed.

(** C5. The claim fails on a chunk whose write fails: [set.restore] returns
    [pipe.Close()] after a failed [pipe.Write], so when the close succeeds the
    failure is lost. With a maximum chunk size of 10, the stream
    "1.1.1.1\n2.2.2.2\n" and a first run whose write fails while the close
    succeeds, [set.Restore] still issues the second invocation after the
    failed chunk and returns nil. *)
Theorem Restore_continues_after_failed_write :
  chunkFails (failedWriteFirst [] ["restore"] ("1.1.1.1" ++ String nl "")%string) = true
  /\ restore failedWriteFirst ("1.1.1.1" ++ String nl "")%string [] []
     = (None, [mkInvocation ["restore"] ("1.1.1.1" ++ String nl "")%string])
  /\ Restore failedWriteFirst 10 (set.mk "test" HashIp) (mkReader ("1.1.1.1" ++ String nl "2.2.2.2" ++ String nl "")%string None) [] []
     = (None, [mkInvocation ["restore"] ("1.1.1.1" ++ String nl "")%string; mkInvocation ["restore"] ("2.2.2.2" ++ String nl "")%string]).
Proof.
  split; [reflexivity|]. split; reflexivity.
Qed.

(** Apart from a failed write that closes cleanly, [set.Restore] stops at the
    first failing chunk. On a stream of newline-terminated lines, with a tool
    for which no failed write is followed by a successful close, the
    invocations are issued one after the other in stream order, there is at
    least one, no chunk before the last one issued failed, and what was sent
    is a prefix of the stream; when the last chunk did not fail the result is
    nil and the payloads make up the whole stream, and when it failed its
    error is returned as "ipset: can't restore to <name>(<type>): <error>",
    the error being the tool's output when the tool exited with a failure.
    With a maximum chunk size of 10 and the stream "1.1.1.1\n2.2.2.2\n" there
    are at least two invocations once the first chunk does not fail. *)
Theorem Restore_stops_at_first_failing_chunk :
  (forall (tool : Tool) (max : Z) (s : set.set) (data : string) (exist : list bool),
     newlineTerminated data = true ->
     (forall h a b, tool h a b <> WriteError None) ->
     exists (ps : list string) (r : pipeOutcome),
       snd (Restore tool max s (mkReader data None) exist [])
       = map (mkInvocation (restoreArgs exist)) ps
       /\ acceptedRun tool (restoreArgs exist) [] ps r
       /\ ps <> []
       /\ (exists rest, data = (joined ps ++ rest)%string)
       /\ (chunkFails r = false ->
           fst (Restore tool max s (mkReader data None) exist []) = None
           /\ joined ps = data)
       /\ (chunkFails r = true ->
           exists msg,
             fst (Restore tool max s (mkReader data None) exist [])
             = Some ("ipset: can't restore to " ++ set.name s ++ "("
                     ++ set.setType s ++ "): " ++ msg)%string)
       /\ (forall text, r = Exited text true ->
             fst (Restore tool max s (mkReader data None) exist [])
             = Some ("ipset: can't restore to " ++ set.name s ++ "("
                     ++ set.setType s ++ "): " ++ text)%string))
  /\ (forall (tool : Tool) (s : set.set) (exist : list bool),
        chunkFails (tool [] (restoreArgs exist) ("1.1.1.1" ++ String nl "")%string) = false ->
        (2 <= List.length
                (snd (Restore tool 10 s (mkReader ("1.1.1.1" ++ String nl "2.2.2.2" ++ String nl "")%string None) exist [])))%nat).
Proof.
  split.
  - intros tool max s data exist Hnl Hw.
    destruct (Restore_run tool max exist s data []) as [ps [e [Hr [Hc [Hp Ha]]]]].
    destruct (chunkRun_accepted tool (restoreArgs exist) [] ps e Hw Hc) as [r [Hacc He]].
    exists ps, r. rewrite Hr. cbn [fst snd app].
    split; [reflexivity|]. split; [exact Hacc|].
    split; [eapply acceptedRun_nonempty; eauto|].
    split; [exact Hp|].
    assert (Hr' : r <> WriteError None).
    { clear - Hacc Hw. induction Hacc; auto. }
    split; [|split].
    + intros Hf.
      assert (En : e = None).
      { rewrite He. destruct r as [e0 | [e0|] | e0 | o [|]]; simpl in Hf |- *;
          congruence. }
      split; [now rewrite En|].
      rewrite (Ha En).
      pose proof (readLines_joined data) as Hj.
      rewrite (readLines_terminated data Hnl), append_nil_r in Hj. exact Hj.
    + intros Hf. rewrite He.
      destruct r as [e0 | [e0|] | e0 | o [|]]; simpl in Hf |- *;
        try congruence; eexists; reflexivity.
    + intros text ->. rewrite He. reflexivity.
  - intros tool s exist Hok.
    assert (Hp : pipeError (tool [] (restoreArgs exist) ("1.1.1.1" ++ String nl "")%string) = None).
    { destruct (tool [] (restoreArgs exist) ("1.1.1.1" ++ String nl "")%string)
        as [e0 | [e0|] | e0 | o [|]]; simpl in Hok |- *; congruence. }
    unfold Restore.
    assert (E : restoreLoop tool 10 exist
                  (fst (readLines (content (mkReader ("1.1.1.1" ++ String nl "2.2.2.2" ++ String nl "")%string None))))
                  (readErr (mkReader ("1.1.1.1" ++ String nl "2.2.2.2" ++ String nl "")%string None))
                  EmptyString []
                = match restore tool ("1.1.1.1" ++ String nl "")%string exist [] with
                  | (Some e, log') => (Some e, log')
                  | (None, log') => restore tool ("2.2.2.2" ++ String nl "")%string exist log'
                  end) by reflexivity.
    rewrite E. unfold restore. rewrite Hp.
    simpl. lia.
Qed.

Lemma Restore_stops_at_first_failing_chunk_witness :
  newlineTerminated ("1.1.1.1" ++ String nl "2.2.2.2" ++ String nl "")%string = true
  /\ (forall h a b, rejectLater h a b <> WriteError None)
  /\ Restore rejectLater 10 (set.mk "test" HashIp) (mkReader ("1.1.1.1" ++ String nl "2.2.2.2" ++ String nl "")%string None) [] []
     = (Some "ipset: can't restore to test(hash:ip): bad line",
        [mkInvocation ["restore"] ("1.1.1.1" ++ String nl "")%string; mkInvocation ["restore"] ("2.2.2.2" ++ String nl "")%string])
  /\ (exists (ps : list string) (r : pipeOutcome),
        snd (Restore rejectLater 10 (set.mk "test" HashIp) (mkReader ("1.1.1.1" ++ String nl "2.2.2.2" ++ String nl "")%string None) [] [])
        = map (mkInvocation (restoreArgs [])) ps
        /\ acceptedRun rejectLater (restoreArgs []) [] ps r
        /\ ps <> []
        /\ (exists rest, ("1.1.1.1" ++ String nl "2.2.2.2" ++ String nl "")%string = (joined ps ++ rest)%string)
        /\ (chunkFails r = false ->
            fst (Restore rejectLater 10 (set.mk "test" HashIp) (mkReader ("1.1.1.1" ++ String nl "2.2.2.2" ++ String nl "")%string None) [] [])
            = None
            /\ joined ps = ("1.1.1.1" ++ String nl "2.2.2.2" ++ String nl "")%string)
        /\ (chunkFails r = true ->
            exists msg,
              fst (Restore rejectLater 10 (set.mk "test" HashIp) (mkReader ("1.1.1.1" ++ String nl "2.2.2.2" ++ String nl "")%string None)
                     [] [])
              = Some ("ipset: can't restore to " ++ "test" ++ "("
                      ++ HashIp ++ "): " ++ msg)%string)
        /\ (forall text, r = Exited text true ->
              fst (Restore rejectLater 10 (set.mk "test" HashIp) (mkReader ("1.1.1.1" ++ String nl "2.2.2.2" ++ String nl "")%string None)
                     [] [])
              = Some ("ipset: can't restore to " ++ "test" ++ "("
                      ++ HashIp ++ "): " ++ text)%string))
  /\ (2 <= List.length
             (snd (Restore rejectLater 10 (set.mk "test" HashIp) (mkReader ("1.1.1.1" ++ String nl "2.2.2.2" ++ String nl "")%string None)
                     [] [])))%nat.
Proof.
  assert (Hw : forall h a b, rejectLater h a b <> WriteError None)
    by (intros h a b; destruct h; discriminate).
  split; [reflexivity|]. split; [exact Hw|]. split; [reflexivity|].
  split.
  - exact (proj1 Restore_stops_at_first_failing_chunk rejectLater 10%Z
             (set.mk "test" HashIp) ("1.1.1.1" ++ String nl "2.2.2.2" ++ String nl "")%string [] eq_refl Hw).
  - exact (proj2 Restore_stops_at_first_failing_chunk rejectLater
             (set.mk "test" HashIp) [] eq_refl).
Defined.

(** C9. Bytes after the last newline of the stream never reach the tool:
    [set.Restore] behaves on a stream with an unterminated last line exactly
    as on the stream without it. When every chunk is accepted it therefore
    returns nil although only the terminated part was sent; on "a\nb" only
    "a\n" is streamed. *)
Theorem Restore_drops_unterminated_tail :
  forall (tool : Tool) (max : Z) (s : set.set) (exist : list bool)
         (p t : string),
    noNewline t = true ->
    (forall log,
       Restore tool max s (mkReader (p ++ t) None) exist log
       = Restore tool max s (mkReader p None) exist log)
    /\ (newlineTerminated p = true ->
        (forall h a b, pipeError (tool h a b) = None) ->
        fst (Restore tool max s (mkReader (p ++ t) None) exist []) = None
        /\ joined (payloads (snd (Restore tool max s (mkReader (p ++ t) None) exist [])))
           = p)
    /\ Restore okTool maxRestoreSize s
         (mkReader ("a" ++ String nl "b")%string None) [] []
       = (None, [mkInvocation ["restore"] ("a" ++ String nl "")%string]).
Proof.
  intros tool max s exist p t Ht.
  assert (Heq : forall log,
            Restore tool max s (mkReader (p ++ t) None) exist log
            = Restore tool max s (mkReader p None) exist log).
  { intros log. unfold Restore. simpl content. simpl readErr.
    now rewrite (readLines_tail p t Ht). }
  split; [exact Heq|]. split.
  - intros Hnl Hok. rewrite Heq.
    destruct (Restore_run tool max exist s p []) as [ps [e [Hr [Hc [Hp Ha]]]]].
    rewrite Hr. simpl.
    pose proof (chunkRun_all_accepted tool exist [] ps e Hok Hc) as He. subst e.
    split; [reflexivity|].
    rewrite payloads_map, (Ha eq_refl).
    pose proof (readLines_joined p) as Hj.
    rewrite (readLines_terminated p Hnl), append_nil_r in Hj. exact Hj.
  - reflexivity.
Qed.

Lemma Restore_drops_unterminated_tail_witness :
  noNewline "b" = true
  /\ Restore okTool 10 (set.mk "test" HashIp)
       (mkReader (("a" ++ String nl "") ++ "b")%string None) [] []
     = Restore okTool 10 (set.mk "test" HashIp)
         (mkReader ("a" ++ String nl "")%string None) [] [].
Proof.
  split; [reflexivity|].
  exact (proj1 (Restore_drops_unterminated_tail okTool 10%Z (set.mk "test" HashIp) []
                  ("a" ++ String nl "")%string "b" eq_refl) []).
Defined.

(** C4: the code at the failing input. With a maximum chunk size of 10 the
    single line "1.1.1.1.1.1.1\n" of fourteen bytes makes [set.Restore] run
    the tool twice, first on the empty buffer and then on the whole line: a
    payload longer than the maximum is handed to one invocation. *)
Theorem Restore_long_line_exceeds_max :
  let log := snd (Restore okTool 10 (set.mk "test" HashIp)
                    (mkReader ("1.1.1.1.1.1.1" ++ String nl "")%string None) [] []) in
  payloads log = [EmptyString; ("1.1.1.1.1.1.1" ++ String nl "")%string]
  /\ map (fun i => Z.of_nat (String.length (payload i))) log = [0%Z; 14%Z]
  /\ exists i, In i log /\ (10 < Z.of_nat (String.length (payload i)))%Z.
Proof.
  cbv zeta. split; [reflexivity|]. split; [reflexivity|].
  exists (mkInvocation ["restore"] ("1.1.1.1.1.1.1" ++ String nl "")%string).
  split; [vm_compute; tauto | vm_compute; reflexivity].
Qed.

(** The chunks respect the maximum whenever every line and the initial
    buffer do: the bound is broken by over-long lines only. *)
Lemma restoreLoop_bounded (tool : Tool) (max : Z) (exist : list bool)
    (lines : list string) :
  Forall (fun l => (Z.of_nat (String.length l) <= max)%Z) lines ->
  forall (b : string) (log : list invocation),
    (Z.of_nat (String.length b) <= max)%Z ->
    Forall (fun i => (Z.of_nat (String.length (payload i)) <= max)%Z) log ->
    Forall (fun i => (Z.of_nat (String.length (payload i)) <= max)%Z)
           (snd (restoreLoop tool max exist lines None b log)).
Proof.
  induction lines as [|bb rest IH]; intros Hall b log Hb Hlog.
  - simpl. apply Forall_app. split; [assumption|]. constructor; [exact Hb | constructor].
  - inversion Hall as [|? ? Hbb Hrest]; subst. simpl.
    destruct (max <? Z.of_nat (String.length b) + Z.of_nat (String.length bb))%Z eqn:Hcmp.
    + unfold restore.
      assert (Hlog' : Forall (fun i => (Z.of_nat (String.length (payload i)) <= max)%Z)
                             (log ++ [mkInvocation (restoreArgs exist) b]))
        by (apply Forall_app; split; [assumption | constructor; [exact Hb | constructor]]).
      destruct (pipeError (tool log (restoreArgs exist) b)); simpl.
      * exact Hlog'.
      * now apply IH.
    + apply IH; auto.
      apply Z.ltb_ge in Hcmp.
      assert (Hlen : String.length (b ++ bb)%string
                     = (String.length b + String.length bb)%nat).
      { clear. induction b as [|a b IHb]; simpl; [reflexivity | now rewrite IHb]. }
      rewrite Hlen. lia.
Qed.

Lemma readLines_single_line (line : string) :
  noNewline line = true ->
  readLines (line ++ String nl "") = ([(line ++ String nl "")%string], EmptyString).
Proof.
  induction line as [|c line IH]; intros H.
  - reflexivity.
  - simpl in H. apply andb_true_iff in H. destruct H as [Hc Hl].
    simpl append. rewrite readLines_cons, (IH Hl).
    apply negb_true_iff in Hc. now rewrite Hc.
Qed.

(** Whatever the maximum, a single newline-terminated line longer than it is
    handed to one invocation whole, after a first invocation on the empty
    buffer. *)
Lemma Restore_single_long_line (tool : Tool) (max : Z) (s : set.set)
    (exist : list bool) (line : string) :
  noNewline line = true ->
  (max < Z.of_nat (String.length (line ++ String nl "")))%Z ->
  pipeError (tool [] (restoreArgs exist) EmptyString) = None ->
  payloads (snd (Restore tool max s (mkReader (line ++ String nl "") None) exist []))
  = [EmptyString; (line ++ String nl "")%string].
Proof.
  intros Hline Hlong Hok.
  unfold Restore. simpl content. simpl readErr.
  rewrite (readLines_single_line line Hline). simpl fst.
  simpl restoreLoop.
  apply Z.ltb_lt in Hlong. rewrite Hlong.
  unfold restore. rewrite Hok. reflexivity.
Qed.

(** ** The repository's own tests, replayed on the model *)

(** Test_Options_Timeout: one second gives the tokens "timeout" "1" for
    create, and nothing for list. *)
Example test_options_timeout :
  fst (appendArgs (mkCmd _create "test" "" HashIp "") [] [Timeout Second] 0 [])
  = ["timeout"; "1"]
  /\ fst (appendArgs (mkCmd _list "test" "" HashIp "") [] [Timeout Second] 0 []) = [].
Proof. split; vm_compute; reflexivity. Qed.

(** The conversion of a duration goes through binary64: fractions of a second
    are dropped, and a large duration just below a whole second is rounded up
    to it. *)
Example timeout_seconds_rounding :
  uint64_of_float (Seconds 1500000000) = 1%N
  /\ uint64_of_float (Seconds 500000000) = 0%N
  /\ uint64_of_float (Seconds (8589934592 * Second + 999999999)) = 8589934593%N.
Proof. repeat split; vm_compute; reflexivity. Qed.

(** Test_Set_List: the listing of the test helper. *)
Example test_set_list :
  parseInfo (String nl "Name: foo" ++ String nl "Type: hash:ip"
             ++ String nl "Revision: 4"
             ++ String nl "Header: family inet hashsize 1024 maxelem 65536"
             ++ String nl "Size in memory: 168"
             ++ String nl "References: 0"
             ++ String nl "Number of entries: 1"
             ++ String nl "Members:"
             ++ String nl "1.1.1.1")%string
  = Ok (mkInfo "" "" 4 "family inet hashsize 1024 maxelem 65536" 168 0 ["1.1.1.1"]).
Proof. vm_compute. reflexivity. Qed.

(** Test_Set_Restore, error case: the failure of the only chunk is wrapped
    with the set's name and type. *)
Example test_set_restore_error :
  Restore (fun _ _ _ => Exited "fake error" true) maxRestoreSize
          (set.mk "test" HashIp)
          (mkReader ("1.1.1.1" ++ String nl "")%string None) [] []
  = (Some "ipset: can't restore to test(hash:ip): fake error",
     [mkInvocation ["restore"] ("1.1.1.1" ++ String nl "")%string]).
Proof. vm_compute. reflexivity. Qed.

(** * Further properties *)

(** ** Options and the argument compiler *)

Lemma call_same_category (m m' : Option) (o : options) :
  categoryOf m = categoryOf m' -> call m' (call m o) = call m' o.
Proof. destruct o, m, m'; intros H; try discriminate H; reflexivity. Qed.

Lemma call_other_category (m m' : Option) (o : options) :
  categoryOf m <> categoryOf m' -> call m' (call m o) = call m (call m' o).
Proof. destruct o, m, m'; intros H; try reflexivity; now elim H. Qed.

Lemma apply_app (o : options) (l1 l2 : list Option) :
  apply o (l1 ++ l2) = apply (apply o l1) l2.
Proof. unfold apply. apply fold_left_app. Qed.

(** Options overwrite, they do not accumulate: of two options of the same
    category given one after the other only the second counts, and two
    neighbouring options of different categories may be swapped; the tokens
    [appendArgs] produces are the same in both cases. *)
Theorem options_last_write_wins_and_commute :
  forall (c : cmd) (args : list string) (l1 l2 : list Option) (m m' : Option)
         (pick : nat) (pool : list options),
    (categoryOf m = categoryOf m' ->
     apply Options.zero (l1 ++ m :: m' :: l2) = apply Options.zero (l1 ++ m' :: l2)
     /\ appendArgs c args (l1 ++ m :: m' :: l2) pick pool
        = appendArgs c args (l1 ++ m' :: l2) pick pool)
    /\ (categoryOf m <> categoryOf m' ->
        apply Options.zero (l1 ++ m :: m' :: l2)
        = apply Options.zero (l1 ++ m' :: m :: l2)
        /\ appendArgs c args (l1 ++ m :: m' :: l2) pick pool
           = appendArgs c args (l1 ++ m' :: m :: l2) pick pool).
Proof.
  intros c args l1 l2 m m' pick pool.
  assert (Hsame : categoryOf m = categoryOf m' -> forall o,
            apply o (l1 ++ m :: m' :: l2) = apply o (l1 ++ m' :: l2)).
  { intros H o. rewrite !apply_app. simpl. unfold apply at 2 4. simpl.
    now rewrite call_same_category. }
  assert (Hswap : categoryOf m <> categoryOf m' -> forall o,
            apply o (l1 ++ m :: m' :: l2) = apply o (l1 ++ m' :: m :: l2)).
  { intros H o. rewrite !apply_app. unfold apply at 2 4. simpl.
    now rewrite call_other_category. }
  split; intros H; (split; [auto|]); unfold appendArgs;
    destruct (acquireOptions pick pool) as [o0 pool1].
  - now rewrite (Hsame H).
  - now rewrite (Hswap H).
Qed.

Lemma options_last_write_wins_and_commute_witness :
  categoryOf (Timeout 1000000000) = categoryOf (Timeout 5000000000)
  /\ fst (appendArgs (mkCmd _add "test" "1.1.1.1" HashIp "") []
            ([Exist true] ++ Timeout 1000000000 :: Timeout 5000000000 :: []) 0 [])
     = fst (appendArgs (mkCmd _add "test" "1.1.1.1" HashIp "") []
              ([Exist true] ++ Timeout 5000000000 :: []) 0 []).
Proof.
  split; [reflexivity|].
  exact (f_equal fst
           (proj2 (proj1 (options_last_write_wins_and_commute
                            (mkCmd _add "test" "1.1.1.1" HashIp "") []
                            [Exist true] [] (Timeout 1000000000)
                            (Timeout 5000000000) 0 []) eq_refl))).
Defined.

Lemma buildArgs_fst (c : cmd) (opts : list Option) (pick : nat) (pool : list options) :
  Forall (eq Options.zero) pool ->
  fst (buildArgs c opts pick pool) = positional c ++ flags c opts.
Proof.
  intros Hpool. unfold buildArgs, positional, flags.
  destruct (isTwoArgs c); simpl negb; cbv iota zeta; now rewrite appendArgs_fst.
Qed.

Lemma buildArgs_snd (c : cmd) (opts : list Option) (pick : nat) (pool : list options) :
  Forall (eq Options.zero) pool ->
  Forall (eq Options.zero) (snd (buildArgs c opts pick pool)).
Proof.
  intros Hpool. unfold buildArgs. now apply appendArgs_snd.
Qed.

(** Compiling is repeatable and does not depend on the pool: whichever idle
    options instance the pool hands out, [buildArgs] yields the same tokens,
    and it leaves every idle instance zeroed, so compiling the same
    descriptor and options again gives the same tokens once more. *)
Theorem buildArgs_repeatable :
  forall (c : cmd) (opts : list Option) (pick pick' pick'' : nat)
         (pool pool' : list options),
    Forall (eq Options.zero) pool -> Forall (eq Options.zero) pool' ->
    fst (buildArgs c opts pick pool) = fst (buildArgs c opts pick' pool')
    /\ Forall (eq Options.zero) (snd (buildArgs c opts pick pool))
    /\ fst (buildArgs c opts pick'' (snd (buildArgs c opts pick pool)))
       = fst (buildArgs c opts pick pool).
Proof.
  intros c opts pick pick' pick'' pool pool' Hp Hp'.
  pose proof (buildArgs_snd c opts pick pool Hp) as Hs.
  repeat split.
  - now rewrite !buildArgs_fst.
  - exact Hs.
  - now rewrite !buildArgs_fst.
Qed.

Lemma buildArgs_repeatable_witness :
  Forall (eq Options.zero) (@nil options)
  /\ Forall (eq Options.zero) [Options.zero; Options.zero]
  /\ fst (buildArgs (mkCmd _add "test" "1.1.1.1" HashNet "") [Nomatch true] 0 [])
     = fst (buildArgs (mkCmd _add "test" "1.1.1.1" HashNet "") [Nomatch true] 1
              [Options.zero; Options.zero]).
Proof.
  assert (H2 : Forall (eq Options.zero) [Options.zero; Options.zero])
    by (repeat constructor).
  split; [constructor|]. split; [exact H2|].
  exact (proj1 (buildArgs_repeatable (mkCmd _add "test" "1.1.1.1" HashNet "")
                  [Nomatch true] 0 1 0 [] [Options.zero; Options.zero]
                  (Forall_nil _) H2)).
Defined.

Lemma flat_map_nil {A B : Type} (f : A -> list B) (l : list A) :
  (forall x, f x = []) -> flat_map f l = [].
Proof.
  intros H. induction l as [|x l IH]; [reflexivity|]. simpl. now rewrite H, IH.
Qed.

Lemma guard_needs_action (k : Category) (c : cmd) :
  guard k c = true -> In (action c) [_create; _add; _del; _list; _save].
Proof.
  destruct k; unfold guard, needTimeout, needExist, needResolve, needCounters,
    onlyAdd, onlyCreate, needNomatch, needFamily, needHash, needNetmask,
    needMarkmask, needListSize, needIpRange, needPortRange;
    rewrite ?andb_true_iff, ?orb_true_iff, ?String.eqb_eq; simpl; intuition.
Qed.

(** Only create, add, del, list and save ever receive a flag: for every other
    action (test, destroy, restore, flush, rename, swap, or any other word)
    [appendArgs] returns the tokens it was given, whatever the options. *)
Theorem appendArgs_nothing_for_other_actions :
  forall (c : cmd) (args : list string) (opts : list Option) (pick : nat)
         (pool : list options),
    ~ In (action c) ["create"; "add"; "del"; "list"; "save"] ->
    Forall (eq Options.zero) pool ->
    fst (appendArgs c args opts pick pool) = args.
Proof.
  intros c args opts pick pool Hact Hpool.
  rewrite appendArgs_fst by assumption.
  rewrite flat_map_nil; [apply app_nil_r|].
  intros k. unfold segment.
  destruct (guard k c) eqn:Hg.
  - exfalso. apply Hact. now apply guard_needs_action in Hg.
  - now rewrite andb_false_r.
Qed.

Lemma appendArgs_nothing_for_other_actions_witness :
  ~ In (action (mkCmd _rename "old" "new" HashIp ""))
       ["create"; "add"; "del"; "list"; "save"]
  /\ Forall (eq Options.zero) (@nil options)
  /\ fst (appendArgs (mkCmd _rename "old" "new" HashIp "") ["rename"; "old"; "new"]
            [Exist true; Timeout 1000000000; Resolve true] 0 [])
     = ["rename"; "old"; "new"].
Proof.
  assert (H : ~ In (action (mkCmd _rename "old" "new" HashIp ""))
                   ["create"; "add"; "del"; "list"; "save"])
    by (simpl; intuition discriminate).
  split; [exact H|]. split; [constructor|].
  exact (appendArgs_nothing_for_other_actions _ _ _ 0 [] H (Forall_nil _)).
Defined.

Lemma flags_del (c : cmd) (opts : list Option) :
  action c = _del ->
  flags c opts = if exist (apply Options.zero opts) then [_exist] else [].
Proof.
  intros Ha. unfold flags.
  rewrite (flat_map_only _ CExist).
  - unfold segment, guard, needExist, isSet. rewrite Ha. simpl.
    now rewrite andb_true_r.
  - apply categoryOrder_NoDup.
  - apply categoryOrder_complete.
  - intros k Hk. unfold segment.
    assert (Hg : guard k c = false).
    { destruct k; try (now elim Hk);
        unfold guard, needTimeout, needResolve, needCounters, onlyAdd, onlyCreate,
          needNomatch, needFamily, needHash, needNetmask, needMarkmask,
          needListSize, needIpRange, needPortRange; rewrite Ha; reflexivity. }
    now rewrite Hg, andb_false_r.
Qed.

Lemma flags_list_save (c : cmd) (opts : list Option) :
  action c = _list \/ action c = _save ->
  flags c opts = if resolve (apply Options.zero opts) then [_resolve] else [].
Proof.
  intros Ha. unfold flags.
  rewrite (flat_map_only _ CResolve).
  - unfold segment, guard, needResolve, isSet.
    destruct Ha as [Ha|Ha]; rewrite Ha; simpl; now rewrite andb_true_r.
  - apply categoryOrder_NoDup.
  - apply categoryOrder_complete.
  - intros k Hk. unfold segment.
    assert (Hg : guard k c = false).
    { destruct k; try (now elim Hk);
        unfold guard, needTimeout, needExist, needCounters, onlyAdd, onlyCreate,
          needNomatch, needFamily, needHash, needNetmask, needMarkmask,
          needListSize, needIpRange, needPortRange;
        destruct Ha as [Ha|Ha]; rewrite Ha; reflexivity. }
    now rewrite Hg, andb_false_r.
Qed.

(** Deleting takes one flag only and listing or saving another: for del the
    appended tokens are "-exist" or nothing, for list and save they are
    "-resolve" or nothing; every other option is dropped. *)
Theorem appendArgs_del_list_save :
  forall (c : cmd) (args : list string) (opts : list Option) (pick : nat)
         (pool : list options),
    Forall (eq Options.zero) pool ->
    (action c = "del" ->
     fst (appendArgs c args opts pick pool)
     = args ++ (if exist (apply Options.zero opts) then ["-exist"] else []))
    /\ (action c = "list" \/ action c = "save" ->
        fst (appendArgs c args opts pick pool)
        = args ++ (if resolve (apply Options.zero opts) then ["-resolve"] else [])).
Proof.
  intros c args opts pick pool Hpool.
  split; intros Ha; rewrite appendArgs_fst by assumption;
    change (flat_map (segment c (apply Options.zero opts)) categoryOrder)
      with (flags c opts).
  - now rewrite flags_del.
  - now rewrite flags_list_save.
Qed.

Lemma appendArgs_del_list_save_witness :
  Forall (eq Options.zero) (@nil options)
  /\ fst (appendArgs (mkCmd _del "test" "1.1.1.1" HashNet "") ["del"; "test"; "1.1.1.1"]
            [Timeout 1000000000; Exist true; Nomatch true] 0 [])
     = ["del"; "test"; "1.1.1.1"] ++ ["-exist"].
Proof.
  split; [constructor|].
  exact (proj1 (appendArgs_del_list_save (mkCmd _del "test" "1.1.1.1" HashNet "")
                  ["del"; "test"; "1.1.1.1"]
                  [Timeout 1000000000; Exist true; Nomatch true] 0 [] (Forall_nil _))
           eq_refl).
Defined.

(** The two flag words that serve two categories are never emitted twice as
    flags: "range" comes from the ip range or from the port range but not
    from both, and "comment" from the comment flag or from the comment
    content but not from both. *)
Theorem shared_flag_words_are_exclusive :
  forall (c : cmd) (o : options),
    flagOf CIpRange = flagOf CPortRange
    /\ flagOf CCommentFlag = flagOf CCommentContent
    /\ (segment c o CIpRange = [] \/ segment c o CPortRange = [])
    /\ (segment c o CCommentFlag = [] \/ segment c o CCommentContent = []).
Proof.
  intros c o. split; [reflexivity|]. split; [reflexivity|]. split.
  - unfold segment, guard, needIpRange, needPortRange.
    destruct (setType c =? BitmapPort) eqn:Hp.
    + apply String.eqb_eq in Hp. rewrite Hp. left.
      simpl. now rewrite !andb_false_r.
    + right. now rewrite !andb_false_r.
  - unfold segment, guard, onlyCreate, onlyAdd.
    destruct (action c =? _add) eqn:Ha.
    + apply String.eqb_eq in Ha. rewrite Ha. left. simpl. now rewrite andb_false_r.
    + right. now rewrite andb_false_r.
Qed.

(** ** Executing a descriptor *)

Lemma exec_fst (run : Adapter) (c : cmd) (opts : list Option) (pick : nat)
    (pool : list options) :
  Forall (eq Options.zero) pool ->
  fst (exec run c opts pick pool) =
  let r := run (positional c ++ flags c opts) in
  if failed r then
    (c, Some (if isTwoArgs c
              then ("ipset: can't " ++ action c ++ " " ++ name c ++ ": "
                    ++ output r)%string
              else ("ipset: can't " ++ action c ++ " " ++ name c ++ " " ++ entry c
                    ++ ": " ++ output r)%string))
  else if needResolve c then
    (mkCmd (action c) (name c) (entry c) (setType c) (out c ++ output r)%string, None)
  else (c, None).
Proof.
  intros Hpool. unfold exec.
  pose proof (buildArgs_fst c opts pick pool Hpool) as Hb.
  destruct (buildArgs c opts pick pool) as [args pool']. simpl in Hb. subst args.
  cbv zeta.
  destruct (failed (run (positional c ++ flags c opts))); [|destruct (needResolve c)];
    try reflexivity.
  destruct (isTwoArgs c); reflexivity.
Qed.

Lemma exec_snd (run : Adapter) (c : cmd) (opts : list Option) (pick : nat)
    (pool : list options) :
  Forall (eq Options.zero) pool ->
  Forall (eq Options.zero) (snd (exec run c opts pick pool)).
Proof.
  intros Hpool. unfold exec.
  pose proof (buildArgs_snd c opts pick pool Hpool) as Hb.
  destruct (buildArgs c opts pick pool) as [args pool']. simpl in Hb.
  destruct (failed (run args)); [destruct (isTwoArgs c)|destruct (needResolve c)];
    exact Hb.
Qed.

Lemma flags_depends (a n e : string) (st : SetType) (ob : string) (opts : list Option) :
  flags (mkCmd a n e st ob) opts = flags (mkCmd a "" "" st "") opts.
Proof.
  unfold flags. apply flat_map_ext. intros k. unfold segment.
  now rewrite guard_depends.
Qed.

(** ** The operations of a set and the pools *)

Lemma getCmd_fst (a n : string) (st : SetType) (es : list string) (pick : nat)
    (cmds : list cmd) :
  Forall (fun c => out c = "") cmds ->
  exists e0,
    fst (getCmd a n st es pick cmds)
    = mkCmd a n (match es with e :: _ => e | [] => e0 end) st ""
    /\ Forall (fun c => out c = "") (snd (getCmd a n st es pick cmds)).
Proof.
  intros Hc. unfold getCmd.
  destruct (poolGet_Forall (fun c => out c = "") zeroCmd eq_refl cmds pick Hc)
    as [Ho Hr].
  destruct (poolGet zeroCmd pick cmds) as [c0 cmds1]. simpl in *.
  exists (entry c0). rewrite Ho. split; [reflexivity | exact Hr].
Qed.

Lemma putCmd_Forall (c : cmd) (cmds : list cmd) :
  Forall (fun c' => out c' = "") cmds ->
  Forall (fun c' => out c' = "") (putCmd c cmds).
Proof. intros H. unfold putCmd, poolPut. constructor; [reflexivity | exact H]. Qed.

Lemma not_two_args (a n e : string) (st : SetType) (ob : string) :
  ~ In a ["list"; "save"; "destroy"; "flush"] ->
  isTwoArgs (mkCmd a n e st ob) = false /\ needResolve (mkCmd a n e st ob) = false.
Proof.
  intros Ha. unfold isTwoArgs, needResolve. simpl.
  destruct (a =? _list) eqn:E1; [apply String.eqb_eq in E1; subst; elim Ha; simpl; tauto|].
  destruct (a =? _save) eqn:E2; [apply String.eqb_eq in E2; subst; elim Ha; simpl; tauto|].
  destruct (a =? _destroy) eqn:E3;
    [apply String.eqb_eq in E3; subst; elim Ha; simpl; tauto|].
  destruct (a =? _flush) eqn:E4; [apply String.eqb_eq in E4; subst; elim Ha; simpl; tauto|].
  split; reflexivity.
Qed.

Lemma do_fst (run : Adapter) (s : set.set) (a e : string) (opts : list Option)
    (pickCmd pickOpt : nat) (cmds : list cmd) (pool : list options) :
  ~ In a ["list"; "save"; "destroy"; "flush"] ->
  Forall (fun c => out c = "") cmds ->
  Forall (eq Options.zero) pool ->
  fst (fst (do run s a e opts pickCmd pickOpt cmds pool))
  = (let r := run ([a; set.name s; e]
                   ++ flags (mkCmd a (set.name s) e (set.setType s) "") opts) in
     if failed r
     then Some ("ipset: can't " ++ a ++ " " ++ set.name s ++ " " ++ e ++ ": "
                ++ output r)%string
     else None).
Proof.
  intros Ha Hc Hp.
  destruct (not_two_args a (set.name s) e (set.setType s) "" Ha) as [Htwo Hres].
  unfold do.
  destruct (getCmd_fst a (set.name s) (set.setType s) [e] pickCmd cmds Hc)
    as [e0 [Hg Hrest]].
  destruct (getCmd a (set.name s) (set.setType s) [e] pickCmd cmds) as [c1 cmds1].
  simpl in Hg. subst c1.
  pose proof (exec_fst run (mkCmd a (set.name s) e (set.setType s) "")
                opts pickOpt pool Hp) as He.
  destruct (exec run (mkCmd a (set.name s) e (set.setType s) "") opts pickOpt pool)
    as [[c' err] pool'].
  simpl in He. unfold positional in He. rewrite Htwo, Hres in He.
  simpl in He |- *.
  destruct (failed (run (a :: set.name s :: e
                         :: flags (mkCmd a (set.name s) e (set.setType s) "") opts)));
    inversion He; reflexivity.
Qed.

(** What an operation that goes through [set.do] (Add, Del, Rename) does is
    fixed by the set, the action, the entry, the options and the tool alone:
    the tool is run on the action, the name, the entry and the flags, a
    failure is reported with the three-argument message and a success with
    nil, whatever the pools held; and the pools are left with zeroed options
    and empty output buffers only. *)
Theorem do_independent_of_pools :
  forall (run : Adapter) (s : set.set) (a e : string) (opts : list Option)
         (pickCmd pickOpt : nat) (cmds : list cmd) (pool : list options),
    ~ In a ["list"; "save"; "destroy"; "flush"] ->
    Forall (fun c => out c = "") cmds ->
    Forall (eq Options.zero) pool ->
    let c := mkCmd a (set.name s) e (set.setType s) "" in
    let r := run ([a; set.name s; e] ++ flags c opts) in
    fst (fst (do run s a e opts pickCmd pickOpt cmds pool))
    = (if failed r
       then Some ("ipset: can't " ++ a ++ " " ++ set.name s ++ " " ++ e ++ ": "
                  ++ output r)%string
       else None)
    /\ Forall (fun c' => out c' = "")
              (snd (fst (do run s a e opts pickCmd pickOpt cmds pool)))
    /\ Forall (eq Options.zero) (snd (do run s a e opts pickCmd pickOpt cmds pool)).
Proof.
  intros run s a e opts pickCmd pickOpt cmds pool Ha Hc Hp c r.
  split; [now apply do_fst|].
  unfold do.
  destruct (getCmd_fst a (set.name s) (set.setType s) [e] pickCmd cmds Hc)
    as [e0 [_ Hrest]].
  destruct (getCmd a (set.name s) (set.setType s) [e] pickCmd cmds) as [c1 cmds1].
  simpl in Hrest.
  pose proof (exec_snd run c1 opts pickOpt pool Hp) as Hs.
  destruct (exec run c1 opts pickOpt pool) as [[c' err] pool']. simpl in Hs |- *.
  split; [now apply putCmd_Forall | exact Hs].
Qed.

Lemma do_independent_of_pools_witness :
  ~ In "add" ["list"; "save"; "destroy"; "flush"]
  /\ Forall (fun c => out c = "") [mkCmd _del "old" "9.9.9.9" HashNet ""]
  /\ Forall (eq Options.zero) (@nil options)
  /\ fst (fst (do (failingRun "fake error") (set.mk "test" HashIp) "add" "1.1.1.1"
                 [Exist true] 0 0 [mkCmd _del "old" "9.9.9.9" HashNet ""] []))
     = Some "ipset: can't add test 1.1.1.1: fake error".
Proof.
  assert (Ha : ~ In "add" ["list"; "save"; "destroy"; "flush"])
    by (simpl; intuition discriminate).
  assert (Hc : Forall (fun c => out c = "") [mkCmd _del "old" "9.9.9.9" HashNet ""])
    by (repeat constructor).
  split; [exact Ha|]. split; [exact Hc|]. split; [constructor|].
  exact (proj1 (do_independent_of_pools (failingRun "fake error")
                  (set.mk "test" HashIp) "add" "1.1.1.1" [Exist true] 0 0
                  [mkCmd _del "old" "9.9.9.9" HashNet ""] [] Ha Hc (Forall_nil _))).
Defined.

Lemma flags_nil_opts (c : cmd) : flags c [] = [].
Proof.
  unfold flags. apply flat_map_nil. intros k. unfold segment.
  destruct k; reflexivity.
Qed.

(** Renaming and deleting at the level of the set: Rename runs the tool on
    exactly "rename", the name and the new name, and Del on "del", the name
    and the entry, followed by "-exist" when the Exist option is set and by
    nothing else, whatever other options are given; a failure is reported as
    "ipset: can't rename <name> <new>: <output>" or
    "ipset: can't del <name> <entry>: <output>". *)
Theorem Rename_and_Del_tokens :
  forall (run : Adapter) (s : set.set) (e : string) (opts : list Option)
         (pickCmd pickOpt : nat) (cmds : list cmd) (pool : list options),
    Forall (fun c => out c = "") cmds ->
    Forall (eq Options.zero) pool ->
    (let r := run ["rename"; set.name s; e] in
     fst (fst (Rename run s e pickCmd pickOpt cmds pool))
     = if failed r
       then Some ("ipset: can't rename " ++ set.name s ++ " " ++ e ++ ": "
                  ++ output r)%string
       else None)
    /\ (let r := run (["del"; set.name s; e]
                      ++ (if exist (apply Options.zero opts) then ["-exist"] else [])) in
        fst (fst (Del run s e opts pickCmd pickOpt cmds pool))
        = if failed r
          then Some ("ipset: can't del " ++ set.name s ++ " " ++ e ++ ": "
                     ++ output r)%string
          else None).
Proof.
  intros run s e opts pickCmd pickOpt cmds pool Hc Hp.
  split.
  - unfold Rename.
    assert (Ha : ~ In _rename ["list"; "save"; "destroy"; "flush"])
      by (simpl; intuition discriminate).
    rewrite (do_fst run s _rename e [] pickCmd pickOpt cmds pool Ha Hc Hp).
    rewrite flags_nil_opts. reflexivity.
  - unfold Del.
    assert (Ha : ~ In _del ["list"; "save"; "destroy"; "flush"])
      by (simpl; intuition discriminate).
    rewrite (do_fst run s _del e opts pickCmd pickOpt cmds pool Ha Hc Hp).
    rewrite (flags_del (mkCmd _del (set.name s) e (set.setType s) "") opts eq_refl).
    reflexivity.
Qed.

Lemma Rename_and_Del_tokens_witness :
  Forall (fun c => out c = "") (@nil cmd)
  /\ Forall (eq Options.zero) (@nil options)
  /\ fst (fst (Del (failingRun "fake error") (set.mk "test" HashIp) "1.1.1.1"
                 [Timeout 1000000000; Exist true] 0 0 [] []))
     = Some "ipset: can't del test 1.1.1.1: fake error".
Proof.
  split; [constructor|]. split; [constructor|].
  exact (proj2 (Rename_and_Del_tokens (failingRun "fake error") (set.mk "test" HashIp)
                  "1.1.1.1" [Timeout 1000000000; Exist true] 0 0 [] []
                  (Forall_nil _) (Forall_nil _))).
Defined.

Lemma exec_two_args (run : Adapter) (a n e : string) (st : SetType)
    (opts : list Option) (pick : nat) (pool : list options) :
  a = _list \/ a = _save ->
  Forall (eq Options.zero) pool ->
  fst (exec run (mkCmd a n e st "") opts pick pool) =
  let r := run ([a; n] ++ (if resolve (apply Options.zero opts) then [_resolve] else [])) in
  if failed r
  then (mkCmd a n e st "", Some ("ipset: can't " ++ a ++ " " ++ n ++ ": " ++ output r)%string)
  else (mkCmd a n e st (output r), None).
Proof.
  intros Ha Hp. rewrite exec_fst by assumption.
  rewrite (flags_list_save (mkCmd a n e st "") opts Ha).
  unfold positional, isTwoArgs, needResolve. simpl.
  destruct Ha as [-> | ->]; reflexivity.
Qed.

(** [set.List] answers from this run of the tool only: the tool is run on
    "list", the name and "-resolve" when asked; a failure gives
    "ipset: can't list <name>: <output>", and otherwise the result is the
    parse of exactly the output of this run, with the name and type of the
    set filled in. Neither the pools nor the entry a reused descriptor still
    carries play a part, and the pools are left clean. *)
Theorem List_answers_from_this_run :
  forall (run : Adapter) (s : set.set) (opts : list Option)
         (pickCmd pickOpt : nat) (cmds : list cmd) (pool : list options),
    Forall (fun c => out c = "") cmds ->
    Forall (eq Options.zero) pool ->
    let r := run (["list"; set.name s]
                  ++ (if resolve (apply Options.zero opts) then ["-resolve"] else [])) in
    fst (fst (List run s opts pickCmd pickOpt cmds pool))
    = (if failed r
       then Error (ExecError ("ipset: can't list " ++ set.name s ++ ": "
                              ++ output r)%string)
       else match parseInfo (output r) with
            | Ok info =>
                Ok (mkInfo (set.name s) (set.setType s) (Revision info) (Header info)
                           (SizeInMemory info) (References info) (Entries info))
            | Error e => Error (ParseError e)
            | Panic => Panic
            end)
    /\ Forall (fun c => out c = "")
              (snd (fst (List run s opts pickCmd pickOpt cmds pool)))
    /\ Forall (eq Options.zero) (snd (List run s opts pickCmd pickOpt cmds pool)).
Proof.
  intros run s opts pickCmd pickOpt cmds pool Hc Hp r.
  unfold List.
  destruct (getCmd_fst _list (set.name s) (set.setType s) [] pickCmd cmds Hc)
    as [e0 [Hg Hrest]].
  destruct (getCmd _list (set.name s) (set.setType s) [] pickCmd cmds) as [c1 cmds1].
  simpl in Hg, Hrest. subst c1.
  pose proof (exec_two_args run _list (set.name s) e0 (set.setType s) opts pickOpt pool
                (or_introl eq_refl) Hp) as He.
  pose proof (exec_snd run (mkCmd _list (set.name s) e0 (set.setType s) "")
                opts pickOpt pool Hp) as Hs.
  destruct (exec run (mkCmd _list (set.name s) e0 (set.setType s) "") opts pickOpt pool)
    as [[c' err] pool'].
  cbn [fst snd] in He, Hs. cbv zeta in He.
  change (run ([_list; set.name s]
               ++ (if resolve (apply Options.zero opts) then [_resolve] else [])))
    with r in He.
  simpl. repeat split.
  - destruct (failed r); inversion He; subst; reflexivity.
  - now apply putCmd_Forall.
  - exact Hs.
Qed.

Lemma List_answers_from_this_run_witness :
  Forall (fun c => out c = "") [mkCmd _add "old" "9.9.9.9" HashNet ""]
  /\ Forall (eq Options.zero) (@nil options)
  /\ fst (fst (List (fun _ => mkExec ("Revision: 4" ++ String nl "Members:"
                                      ++ String nl "1.1.1.1")%string false)
                 (set.mk "test" HashIp) [] 0 0
                 [mkCmd _add "old" "9.9.9.9" HashNet ""] []))
     = Ok (mkInfo "test" HashIp 4 "" 0 0 ["1.1.1.1"]).
Proof.
  assert (Hc : Forall (fun c => out c = "") [mkCmd _add "old" "9.9.9.9" HashNet ""])
    by (repeat constructor).
  split; [exact Hc|]. split; [constructor|].
  exact (proj1 (List_answers_from_this_run
                  (fun _ => mkExec ("Revision: 4" ++ String nl "Members:"
                                    ++ String nl "1.1.1.1")%string false)
                  (set.mk "test" HashIp) [] 0 0
                  [mkCmd _add "old" "9.9.9.9" HashNet ""] [] Hc (Forall_nil _))).
Defined.

Lemma exec_snd_eq (run : Adapter) (c : cmd) (opts : list Option) (pick : nat)
    (pool : list options) :
  snd (exec run c opts pick pool) = Options.zero :: snd (poolGet Options.zero pick pool).
Proof.
  unfold exec, buildArgs, appendArgs, acquireOptions.
  destruct (poolGet Options.zero pick pool) as [o0 pool1].
  rewrite releaseOptions_eq. cbv zeta.
  match goal with |- context [failed ?r] => destruct (failed r) end;
    [destruct (isTwoArgs c) | destruct (needResolve c)]; reflexivity.
Qed.

(** Writing a listing or a dump to a file: when the tool fails nothing is
    written and the failure is reported as for list and save; when it
    succeeds [ioutil.WriteFile] is called once, with the file name and
    exactly the output of this run, and what it returns is the result. In
    both cases the pools are left clean: the descriptor of this call is put
    back on the descriptor pool with its output buffer emptied, a zeroed
    options instance is put back on the options pool, and every idle
    descriptor has an empty buffer and every idle options instance is
    zeroed. *)
Theorem doToFile_writes_this_output :
  forall (run : Adapter) (writeFile : FileWriter) (s : set.set) (a filename : string)
         (opts : list Option) (pickCmd pickOpt : nat) (cmds : list cmd)
         (pool : list options),
    a = "list" \/ a = "save" ->
    Forall (fun c => out c = "") cmds ->
    Forall (eq Options.zero) pool ->
    let r := run ([a; set.name s]
                  ++ (if resolve (apply Options.zero opts) then ["-resolve"] else [])) in
    fst (fst (doToFile run writeFile s a filename opts pickCmd pickOpt cmds pool))
    = (if failed r
       then (Some ("ipset: can't " ++ a ++ " " ++ set.name s ++ ": " ++ output r)%string,
             [])
       else (writeFile filename (output r), [(filename, output r)]))
    /\ (exists e0,
          snd (fst (doToFile run writeFile s a filename opts pickCmd pickOpt cmds pool))
          = mkCmd a (set.name s) e0 (set.setType s) ""
            :: snd (poolGet zeroCmd pickCmd cmds))
    /\ Forall (fun c => out c = "") (snd (fst (doToFile run writeFile s a filename opts pickCmd pickOpt cmds pool)))
    /\ snd (doToFile run writeFile s a filename opts pickCmd pickOpt cmds pool) = Options.zero :: snd (poolGet Options.zero pickOpt pool)
    /\ Forall (eq Options.zero) (snd (doToFile run writeFile s a filename opts pickCmd pickOpt cmds pool)).
Proof.
  intros run writeFile s a filename opts pickCmd pickOpt cmds pool Ha Hc Hp r.
  unfold doToFile.
  destruct (getCmd_fst a (set.name s) (set.setType s) [] pickCmd cmds Hc)
    as [e0 [Hg Hrest]].
  assert (Hsnd : snd (getCmd a (set.name s) (set.setType s) [] pickCmd cmds)
                 = snd (poolGet zeroCmd pickCmd cmds)).
  { unfold getCmd. now destruct (poolGet zeroCmd pickCmd cmds). }
  destruct (getCmd a (set.name s) (set.setType s) [] pickCmd cmds) as [c1 cmds1].
  cbn [fst snd] in Hg, Hrest, Hsnd. subst c1 cmds1.
  pose proof (exec_two_args run a (set.name s) e0 (set.setType s) opts pickOpt pool
                Ha Hp) as He.
  pose proof (exec_snd run (mkCmd a (set.name s) e0 (set.setType s) "")
                opts pickOpt pool Hp) as Hs.
  pose proof (exec_snd_eq run (mkCmd a (set.name s) e0 (set.setType s) "")
                opts pickOpt pool) as Hq.
  destruct (exec run (mkCmd a (set.name s) e0 (set.setType s) "") opts pickOpt pool)
    as [[c' err] pool'].
  cbn [fst snd] in He, Hs, Hq. cbv zeta in He.
  change (run ([a; set.name s]
               ++ (if resolve (apply Options.zero opts) then [_resolve] else [])))
    with r in He.
  destruct (failed r); inversion He; subst c' err; cbn [fst snd];
    (split; [reflexivity|]);
    (split; [exists e0; reflexivity|]);
    (split; [now apply putCmd_Forall|]);
    (split; [exact Hq | exact Hs]).
Qed.

Lemma doToFile_writes_this_output_witness :
  ("save" = "list" \/ "save" = "save")
  /\ Forall (fun c => out c = "") [mkCmd _add "old" "9.9.9.9" HashNet ""]
  /\ Forall (eq Options.zero) (@nil options)
  /\ fst (fst (doToFile (fun _ => mkExec "add foo 1.1.1.1" false) (fun _ _ => None)
                 (set.mk "foo" HashIp) "save" "dump.txt" [] 0 0
                 [mkCmd _add "old" "9.9.9.9" HashNet ""] []))
     = (None, [("dump.txt", "add foo 1.1.1.1")])
  /\ (exists e0,
        snd (fst (doToFile (fun _ => mkExec "add foo 1.1.1.1" false) (fun _ _ => None)
                 (set.mk "foo" HashIp) "save" "dump.txt" [] 0 0
                 [mkCmd _add "old" "9.9.9.9" HashNet ""] []))
        = mkCmd "save" "foo" e0 HashIp ""
          :: snd (poolGet zeroCmd 0 [mkCmd _add "old" "9.9.9.9" HashNet ""]))
  /\ Forall (fun c => out c = "") (snd (fst (doToFile (fun _ => mkExec "add foo 1.1.1.1" false) (fun _ _ => None)
                 (set.mk "foo" HashIp) "save" "dump.txt" [] 0 0
                 [mkCmd _add "old" "9.9.9.9" HashNet ""] [])))
  /\ snd (doToFile (fun _ => mkExec "add foo 1.1.1.1" false) (fun _ _ => None)
                 (set.mk "foo" HashIp) "save" "dump.txt" [] 0 0
                 [mkCmd _add "old" "9.9.9.9" HashNet ""] []) = Options.zero :: snd (poolGet Options.zero 0 [])
  /\ Forall (eq Options.zero) (snd (doToFile (fun _ => mkExec "add foo 1.1.1.1" false) (fun _ _ => None)
                 (set.mk "foo" HashIp) "save" "dump.txt" [] 0 0
                 [mkCmd _add "old" "9.9.9.9" HashNet ""] [])).
Proof.
  assert (Hc : Forall (fun c => out c = "") [mkCmd _add "old" "9.9.9.9" HashNet ""])
    by (repeat constructor).
  split; [now right|]. split; [exact Hc|]. split; [constructor|].
  exact (doToFile_writes_this_output (fun _ => mkExec "add foo 1.1.1.1" false)
           (fun _ _ => None) (set.mk "foo" HashIp) "save" "dump.txt" [] 0 0
           [mkCmd _add "old" "9.9.9.9" HashNet ""] []
           (or_intror eq_refl) Hc (Forall_nil _)).
Defined.

(** ** More on the restore streamer *)

Lemma length_append (a b : string) :
  String.length (a ++ b) = (String.length a + String.length b)%nat.
Proof. induction a as [|c a IH]; simpl; [reflexivity | now rewrite IH]. Qed.

Lemma restoreLoop_failing_reader (tool : Tool) (max : Z) (exist : list bool)
    (e : string) (lines : list string) :
  forall (b : string) (log : list invocation),
    fst (restoreLoop tool max exist lines (Some e) b log) <> None
    /\ ((Z.of_nat (String.length b) + Z.of_nat (String.length (joined lines)) <= max)%Z ->
        restoreLoop tool max exist lines (Some e) b log = (Some e, log)).
Proof.
  induction lines as [|bb rest IH]; intros b log.
  - simpl. split; [discriminate | reflexivity].
  - simpl. rewrite joined_cons, length_append.
    destruct (max <? Z.of_nat (String.length b) + Z.of_nat (String.length bb))%Z eqn:Hcmp.
    + split.
      * unfold restore.
        destruct (pipeError (tool log (restoreArgs exist) b)); simpl; [discriminate|].
        apply IH.
      * intros Hle. apply Z.ltb_lt in Hcmp. lia.
    + split; [apply IH|].
      intros Hle. apply IH. rewrite length_append. lia.
Qed.

(** When the reader fails with an error other than the end of the input,
    [set.Restore] never returns nil, and the lines it has buffered since the
    last flush are not sent: if what was read before the failure fits one
    chunk, the tool is not run at all and the reader's error comes back
    wrapped with the set's name and type. *)
Theorem Restore_failing_reader :
  forall (tool : Tool) (max : Z) (s : set.set) (data e : string)
         (exist : list bool) (log : list invocation),
    fst (Restore tool max s (mkReader data (Some e)) exist log) <> None
    /\ ((Z.of_nat (String.length (joined (fst (readLines data)))) <= max)%Z ->
        Restore tool max s (mkReader data (Some e)) exist log
        = (Some ("ipset: can't restore to " ++ set.name s ++ "(" ++ set.setType s
                 ++ "): " ++ e)%string, log)).
Proof.
  intros tool max s data e exist log.
  unfold Restore. simpl content. simpl readErr.
  destruct (restoreLoop_failing_reader tool max exist e (fst (readLines data))
              EmptyString log) as [Hne Hfit].
  split.
  - destruct (restoreLoop tool max exist (fst (readLines data)) (Some e) EmptyString log)
      as [[x|] log']; simpl in *; [discriminate | now elim Hne].
  - intros Hle. rewrite Hfit by (simpl; lia). reflexivity.
Qed.

Lemma Restore_failing_reader_witness :
  (Z.of_nat (String.length
               (joined (fst (readLines ("1.1.1.1" ++ String nl "2.2")%string)))) <= 65536)%Z
  /\ Restore okTool 65536 (set.mk "test" HashIp)
       (mkReader ("1.1.1.1" ++ String nl "2.2")%string (Some "read error")) [] []
     = (Some "ipset: can't restore to test(hash:ip): read error", []).
Proof.
  assert (H : (Z.of_nat (String.length
                 (joined (fst (readLines ("1.1.1.1" ++ String nl "2.2")%string))))
               <= 65536)%Z) by (vm_compute; discriminate).
  split; [exact H|].
  exact (proj2 (Restore_failing_reader okTool 65536%Z (set.mk "test" HashIp)
                  ("1.1.1.1" ++ String nl "2.2")%string "read error" [] []) H).
Defined.

Lemma restoreLoop_one_chunk (tool : Tool) (max : Z) (exist : list bool)
    (lines : list string) :
  forall (b : string) (log : list invocation),
    (Z.of_nat (String.length b) + Z.of_nat (String.length (joined lines)) <= max)%Z ->
    restoreLoop tool max exist lines None b log
    = restore tool (b ++ joined lines)%string exist log.
Proof.
  induction lines as [|bb rest IH]; intros b log Hle.
  - simpl. now rewrite joined_nil, append_nil_r.
  - simpl. rewrite joined_cons, length_append in *.
    destruct (max <? Z.of_nat (String.length b) + Z.of_nat (String.length bb))%Z eqn:Hcmp.
    + apply Z.ltb_lt in Hcmp. lia.
    + rewrite IH by (rewrite length_append; lia).
      now rewrite append_assoc.
Qed.

(** A stream whose newline-terminated part fits the maximum is sent in one
    invocation: the tool is run exactly once, on that whole part, also when
    the stream is empty (the payload is then empty), and its error is the
    result. *)
Theorem Restore_small_stream_one_invocation :
  forall (tool : Tool) (max : Z) (s : set.set) (data : string)
         (exist : list bool) (log : list invocation),
    let sent := joined (fst (readLines data)) in
    (Z.of_nat (String.length sent) <= max)%Z ->
    Restore tool max s (mkReader data None) exist log
    = (option_map (restoreError s) (pipeError (tool log (restoreArgs exist) sent)),
       log ++ [mkInvocation (restoreArgs exist) sent])
    /\ (newlineTerminated data = true -> sent = data).
Proof.
  intros tool max s data exist log sent Hle.
  split.
  - unfold Restore. simpl content. simpl readErr.
    rewrite restoreLoop_one_chunk by (simpl; fold sent; lia).
    reflexivity.
  - intros Hnl. unfold sent.
    pose proof (readLines_joined data) as Hj.
    now rewrite (readLines_terminated data Hnl), append_nil_r in Hj.
Qed.

Lemma Restore_small_stream_one_invocation_witness :
  (Z.of_nat (String.length (joined (fst (readLines EmptyString)))) <= 65536)%Z
  /\ Restore okTool 65536 (set.mk "test" HashIp) (mkReader EmptyString None) [true] []
     = (None, [mkInvocation ["restore"; "-exist"] EmptyString]).
Proof.
  assert (H : (Z.of_nat (String.length (joined (fst (readLines EmptyString)))) <= 65536)%Z)
    by (vm_compute; discriminate).
  split; [exact H|].
  exact (proj1 (Restore_small_stream_one_invocation okTool 65536%Z
                  (set.mk "test" HashIp) EmptyString [true] [] H)).
Defined.

Lemma restoreLoop_bounded_any (tool : Tool) (max : Z) (exist : list bool)
    (final : option string) (lines : list string) :
  Forall (fun l => (Z.of_nat (String.length l) <= max)%Z) lines ->
  forall (b : string) (log : list invocation),
    (Z.of_nat (String.length b) <= max)%Z ->
    Forall (fun i => (Z.of_nat (String.length (payload i)) <= max)%Z) log ->
    Forall (fun i => (Z.of_nat (String.length (payload i)) <= max)%Z)
           (snd (restoreLoop tool max exist lines final b log)).
Proof.
  induction lines as [|bb rest IH]; intros Hall b log Hb Hlog.
  - simpl. destruct final; [exact Hlog|].
    simpl. apply Forall_app. split; [assumption|]. constructor; [exact Hb | constructor].
  - inversion Hall as [|? ? Hbb Hrest]; subst. simpl.
    destruct (max <? Z.of_nat (String.length b) + Z.of_nat (String.length bb))%Z eqn:Hcmp.
    + unfold restore.
      assert (Hlog' : Forall (fun i => (Z.of_nat (String.length (payload i)) <= max)%Z)
                             (log ++ [mkInvocation (restoreArgs exist) b]))
        by (apply Forall_app; split; [assumption | constructor; [exact Hb | constructor]]).
      destruct (pipeError (tool log (restoreArgs exist) b)); simpl.
      * exact Hlog'.
      * now apply IH.
    + apply IH; auto.
      apply Z.ltb_ge in Hcmp. rewrite length_append. lia.
Qed.

(** The chunk bound holds exactly when the lines allow it: if no line of the
    stream, its newline included, is longer than the maximum, then no
    invocation of [set.Restore] receives more than the maximum, whatever the
    reader and the tool do. *)
Theorem Restore_payloads_bounded_when_lines_fit :
  forall (tool : Tool) (max : Z) (s : set.set) (r : Reader) (exist : list bool),
    (0 <= max)%Z ->
    Forall (fun l => (Z.of_nat (String.length l) <= max)%Z) (fst (readLines (content r))) ->
    Forall (fun i => (Z.of_nat (String.length (payload i)) <= max)%Z)
           (snd (Restore tool max s r exist [])).
Proof.
  intros tool max s r exist Hmax Hlines.
  unfold Restore.
  pose proof (restoreLoop_bounded_any tool max exist (readErr r)
                (fst (readLines (content r))) Hlines EmptyString []) as H.
  destruct (restoreLoop tool max exist (fst (readLines (content r))) (readErr r)
              EmptyString []) as [err log'].
  simpl in *. apply H; [lia | constructor].
Qed.

Lemma Restore_payloads_bounded_when_lines_fit_witness :
  (0 <= 10)%Z
  /\ Forall (fun l => (Z.of_nat (String.length l) <= 10)%Z)
            (fst (readLines (content
               (mkReader ("1.1.1.1" ++ String nl "2.2.2.2" ++ String nl "")%string None))))
  /\ Forall (fun i => (Z.of_nat (String.length (payload i)) <= 10)%Z)
            (snd (Restore okTool 10 (set.mk "test" HashIp)
                    (mkReader ("1.1.1.1" ++ String nl "2.2.2.2" ++ String nl "")%string
                              None) [] [])).
Proof.
  assert (H0 : (0 <= 10)%Z) by lia.
  assert (Hl : Forall (fun l => (Z.of_nat (String.length l) <= 10)%Z)
                 (fst (readLines (content
                    (mkReader ("1.1.1.1" ++ String nl "2.2.2.2" ++ String nl "")%string
                              None))))).
  { change (Forall (fun l => (Z.of_nat (String.length l) <= 10)%Z)
              [("1.1.1.1" ++ String nl "")%string; ("2.2.2.2" ++ String nl "")%string]).
    repeat constructor; simpl; lia. }
  split; [exact H0|]. split; [exact Hl|].
  exact (Restore_payloads_bounded_when_lines_fit okTool 10%Z (set.mk "test" HashIp)
           _ [] H0 Hl).
Defined.

Lemma newlineTerminated_app (a b : string) :
  newlineTerminated a = true -> newlineTerminated b = true ->
  newlineTerminated (a ++ b) = true.
Proof.
  induction a as [|c a IH]; intros Ha Hb; [exact Hb|].
  destruct a as [|c' a'].
  - simpl in Ha. simpl. destruct b; [exact Ha | exact Hb].
  - change (newlineTerminated (String c' a') = true) in Ha.
    specialize (IH Ha Hb). simpl in IH |- *. exact IH.
Qed.

Lemma readLines_lines_nonempty (data : string) :
  Forall (fun l => l <> EmptyString /\ newlineTerminated l = true)
         (fst (readLines data)).
Proof.
  induction data as [|c rest IH]; [constructor|].
  rewrite readLines_cons.
  destruct (readLines rest) as [ls tl]. simpl in IH.
  destruct (Ascii.eqb c nl) eqn:Hc.
  - simpl. constructor; [split; [discriminate | simpl; exact Hc] | exact IH].
  - destruct ls as [|l ls']; [constructor|].
    inversion IH as [|? ? [Hne Hl] Hls]; subst. simpl. constructor; [|exact Hls].
    split; [discriminate|].
    destruct l as [|c' l']; [now elim Hne | exact Hl].
Qed.

Lemma readLines_lines_terminated (data : string) :
  Forall (fun l => newlineTerminated l = true) (fst (readLines data)).
Proof.
  eapply Forall_impl; [|apply readLines_lines_nonempty].
  intros l [_ H]. exact H.
Qed.

Lemma restoreLoop_whole_lines (tool : Tool) (max : Z) (exist : list bool)
    (final : option string) (lines : list string) :
  Forall (fun l => newlineTerminated l = true) lines ->
  forall (b : string) (log : list invocation),
    newlineTerminated b = true ->
    Forall (fun i => newlineTerminated (payload i) = true) log ->
    Forall (fun i => newlineTerminated (payload i) = true)
           (snd (restoreLoop tool max exist lines final b log)).
Proof.
  induction lines as [|bb rest IH]; intros Hall b log Hb Hlog.
  - simpl. destruct final; [exact Hlog|].
    simpl. apply Forall_app. split; [assumption|]. constructor; [exact Hb | constructor].
  - inversion Hall as [|? ? Hbb Hrest]; subst. simpl.
    destruct (max <? Z.of_nat (String.length b) + Z.of_nat (String.length bb))%Z.
    + unfold restore.
      assert (Hlog' : Forall (fun i => newlineTerminated (payload i) = true)
                             (log ++ [mkInvocation (restoreArgs exist) b]))
        by (apply Forall_app; split; [assumption | constructor; [exact Hb | constructor]]).
      destruct (pipeError (tool log (restoreArgs exist) b)); simpl.
      * exact Hlog'.
      * now apply IH.
    + apply IH; auto. now apply newlineTerminated_app.
Qed.

(** A line is never split between two invocations: whatever the maximum, the
    reader and the tool, every payload [set.Restore] hands to the tool is
    made of whole newline-terminated lines (or is empty), and every
    invocation carries the same arguments, "restore" followed by "-exist"
    exactly when the first of the optional flags is true. *)
Theorem Restore_sends_whole_lines :
  forall (tool : Tool) (max : Z) (s : set.set) (r : Reader) (exist : list bool),
    Forall (fun i => newlineTerminated (payload i) = true
                     /\ inv_args i = (if match exist with b :: _ => b | [] => false end
                                      then ["restore"; "-exist"] else ["restore"]))
           (snd (Restore tool max s r exist [])).
Proof.
  intros tool max s r exist.
  assert (Hargs : forall lines final b log,
            Forall (fun i => inv_args i = restoreArgs exist) log ->
            Forall (fun i => inv_args i = restoreArgs exist)
                   (snd (restoreLoop tool max exist lines final b log))).
  { induction lines as [|bb rest IH]; intros final b log Hlog; simpl.
    - destruct final; [exact Hlog|]. simpl.
      apply Forall_app. split; [assumption | repeat constructor].
    - destruct (max <? Z.of_nat (String.length b) + Z.of_nat (String.length bb))%Z.
      + unfold restore.
        assert (Hlog' : Forall (fun i => inv_args i = restoreArgs exist)
                               (log ++ [mkInvocation (restoreArgs exist) b]))
          by (apply Forall_app; split; [assumption | repeat constructor]).
        destruct (pipeError (tool log (restoreArgs exist) b)); simpl; auto.
      + now apply IH. }
  unfold Restore.
  pose proof (restoreLoop_whole_lines tool max exist (readErr r)
                (fst (readLines (content r)))
                (readLines_lines_terminated (content r)) EmptyString []
                eq_refl (Forall_nil _)) as Hw.
  pose proof (Hargs (fst (readLines (content r))) (readErr r) EmptyString []
                (Forall_nil _)) as Ha.
  destruct (restoreLoop tool max exist (fst (readLines (content r))) (readErr r)
              EmptyString []) as [err log'].
  simpl in *.
  rewrite Forall_forall in *. intros i Hi. split; [now apply Hw|].
  rewrite (Ha i Hi). destruct exist as [|[|] ?]; reflexivity.
Qed.

(** Restoring from a file: when the file cannot be opened the tool is not run
    and the error of [os.Open] is returned as it is; when closing the file
    fails, that error is the result even though every chunk was accepted and
    the whole content was sent; otherwise the result is that of
    [set.Restore] on the content. *)
Theorem RestoreFromFile_outcomes :
  forall (tool : Tool) (max : Z) (clean : string -> string)
         (open : string -> openOutcome) (s : set.set) (filename : string)
         (exist : list bool),
    (forall e, open (clean filename) = OpenError e ->
       RestoreFromFile tool max clean open s filename exist [] = (Some e, []))
    /\ (forall data closeErr,
          open (clean filename) = Opened (mkReader data None) closeErr ->
          newlineTerminated data = true ->
          (forall h a b, pipeError (tool h a b) = None) ->
          fst (RestoreFromFile tool max clean open s filename exist []) = closeErr
          /\ joined (payloads (snd (RestoreFromFile tool max clean open s filename
                                      exist [])))
             = data)
    /\ (forall r, open (clean filename) = Opened r None ->
          RestoreFromFile tool max clean open s filename exist []
          = Restore tool max s r exist []).
Proof.
  intros tool max clean open s filename exist.
  repeat split.
  - intros e Ho. unfold RestoreFromFile. now rewrite Ho.
  - unfold RestoreFromFile. rewrite H.
    destruct (Restore_run tool max exist s data []) as [ps [e [Hr [Hc _]]]].
    rewrite Hr. simpl.
    rewrite (chunkRun_all_accepted tool exist [] ps e H1 Hc).
    simpl. destruct closeErr; reflexivity.
  - unfold RestoreFromFile. rewrite H.
    destruct (Restore_run tool max exist s data []) as [ps [e [Hr [Hc [_ Ha]]]]].
    rewrite Hr. simpl.
    pose proof (chunkRun_all_accepted tool exist [] ps e H1 Hc) as He.
    rewrite payloads_map, (Ha He).
    pose proof (readLines_joined data) as Hj.
    now rewrite (readLines_terminated data H0), append_nil_r in Hj.
  - intros r Ho. unfold RestoreFromFile. rewrite Ho.
    destruct (Restore tool max s r exist []) as [err log']. reflexivity.
Qed.

Lemma RestoreFromFile_outcomes_witness :
  (fun _ : string => Opened (mkReader ("1.1.1.1" ++ String nl "")%string None)
                            (Some "close failed")) "dump"
  = Opened (mkReader ("1.1.1.1" ++ String nl "")%string None) (Some "close failed")
  /\ newlineTerminated ("1.1.1.1" ++ String nl "")%string = true
  /\ (forall h a b, pipeError (okTool h a b) = None)
  /\ fst (RestoreFromFile okTool 65536 (fun f => f)
            (fun _ => Opened (mkReader ("1.1.1.1" ++ String nl "")%string None)
                             (Some "close failed"))
            (set.mk "test" HashIp) "dump" [] [])
     = Some "close failed".
Proof.
  split; [reflexivity|]. split; [reflexivity|].
  split; [intros; reflexivity|].
  exact (proj1 (proj1 (proj2 (RestoreFromFile_outcomes okTool 65536%Z (fun f => f)
                  (fun _ => Opened (mkReader ("1.1.1.1" ++ String nl "")%string None)
                                   (Some "close failed"))
                  (set.mk "test" HashIp) "dump" []))
                  ("1.1.1.1" ++ String nl "")%string (Some "close failed")
                  eq_refl eq_refl (fun _ _ _ => eq_refl))).
Defined.

(** ** More on the listing parser *)

Lemma scanFrom_nil (cur : string) :
  scanFrom cur EmptyString =
  if (String.length cur =? 0)%nat then ([], None)
  else if (MaxScanTokenSize <=? Z.of_nat (String.length cur))%Z
       then ([], Some (dropCR (String.substring 0 (Z.to_nat MaxScanTokenSize) cur)))
       else ([dropCR cur], None).
Proof. reflexivity. Qed.

Lemma scanFrom_cons (cur : string) (c : ascii) (rest : string) :
  scanFrom cur (String c rest) =
  if Ascii.eqb c nl then
    if (MaxScanTokenSize <? Z.of_nat (String.length cur) + 1)%Z
    then ([], Some (dropCR (String.substring 0 (Z.to_nat MaxScanTokenSize) cur)))
    else let (ts, ov) := scanFrom EmptyString rest in (dropCR cur :: ts, ov)
  else scanFrom (cur ++ String c EmptyString)%string rest.
Proof. reflexivity. Qed.

Lemma scanFrom_line (l : string) :
  forall (cur rest : string),
    noNewline l = true ->
    (Z.of_nat (String.length (cur ++ l)) < MaxScanTokenSize)%Z ->
    scanFrom cur (l ++ String nl rest)
    = (dropCR (cur ++ l) :: fst (scanFrom EmptyString rest),
       snd (scanFrom EmptyString rest)).
Proof.
  induction l as [|c l IH]; intros cur rest Hn Hlen.
  - simpl append. rewrite scanFrom_cons, Ascii.eqb_refl.
    rewrite append_nil_r in *.
    destruct (MaxScanTokenSize <? Z.of_nat (String.length cur) + 1)%Z eqn:Hc.
    + apply Z.ltb_lt in Hc. lia.
    + destruct (scanFrom EmptyString rest); reflexivity.
  - simpl in Hn. apply andb_true_iff in Hn. destruct Hn as [Hc Hl].
    apply negb_true_iff in Hc.
    simpl append. rewrite scanFrom_cons, Hc.
    rewrite IH; auto.
    + now rewrite append_assoc.
    + now rewrite append_assoc.
Qed.

Lemma scanFrom_last (l : string) :
  forall (cur : string),
    noNewline l = true ->
    (Z.of_nat (String.length (cur ++ l)) < MaxScanTokenSize)%Z ->
    scanFrom cur l
    = (if (String.length (cur ++ l) =? 0)%nat then [] else [dropCR (cur ++ l)], None).
Proof.
  induction l as [|c l IH]; intros cur Hn Hlen.
  - rewrite scanFrom_nil. rewrite append_nil_r in *.
    destruct (String.length cur =? 0)%nat; [reflexivity|].
    destruct (MaxScanTokenSize <=? Z.of_nat (String.length cur))%Z eqn:Hc;
      [apply Z.leb_le in Hc; lia | reflexivity].
  - simpl in Hn. apply andb_true_iff in Hn. destruct Hn as [Hc Hl].
    apply negb_true_iff in Hc.
    rewrite scanFrom_cons, Hc.
    rewrite IH; auto.
    + now rewrite append_assoc.
    + now rewrite append_assoc.
Qed.

Lemma dropCR_snoc (l : string) : dropCR (l ++ String cr EmptyString) = l.
Proof.
  induction l as [|c l IH]; [reflexivity|].
  simpl append. destruct l as [|c' l']; simpl in *; [reflexivity | now rewrite IH].
Qed.

Lemma scanLines_joined (ls : list string) :
  forall (last : string),
    Forall (fun l => noNewline l = true
                     /\ (Z.of_nat (String.length l) < MaxScanTokenSize)%Z) ls ->
    noNewline last = true ->
    (Z.of_nat (String.length last) < MaxScanTokenSize)%Z ->
    scanLines (joinLines ls ++ last)
    = (map dropCR ls ++ (if (String.length last =? 0)%nat then [] else [dropCR last]),
       None).
Proof.
  unfold scanLines. induction ls as [|l ls IH]; intros last Hall Hn Hlen.
  - simpl. now rewrite scanFrom_last.
  - inversion Hall as [|? ? [Hl1 Hl2] Hrest]; subst.
    simpl joinLines. rewrite append_assoc. simpl append.
    rewrite scanFrom_line by assumption.
    rewrite (IH last Hrest Hn Hlen). reflexivity.
Qed.

(** Splitting undoes joining: scanning lines that were each followed by a
    newline, and possibly a last line that was not, gives back those lines
    and no late token, each without the carriage return it may end with, so
    output with CRLF line ends scans to the same lines. Each line must fit the
    scanner's buffer and hold no newline. *)
Theorem scanLines_of_joined_lines :
  forall (ls : list string) (last : string),
    Forall (fun l => noNewline l = true
                     /\ (Z.of_nat (String.length l) < MaxScanTokenSize)%Z) ls ->
    noNewline last = true ->
    (Z.of_nat (String.length last) < MaxScanTokenSize)%Z ->
    scanLines (joinLines ls ++ last)
    = (map dropCR ls ++ (if (String.length last =? 0)%nat then [] else [dropCR last]),
       None)
    /\ (forall l, dropCR (l ++ String cr EmptyString) = l)
    /\ (Forall plainLine ls -> fst (scanLines (joinLines ls)) = ls).
Proof.
  intros ls last Hall Hn Hlen.
  split; [now apply scanLines_joined|].
  split; [apply dropCR_snoc|].
  intros Hplain.
  pose proof (scanLines_joined ls EmptyString Hall eq_refl) as H.
  rewrite append_nil_r in H. rewrite H by (unfold MaxScanTokenSize; simpl; lia).
  simpl. rewrite app_nil_r.
  clear - Hplain. induction Hplain as [|l ls [_ [_ Hd]] _ IH]; [reflexivity|].
  simpl. now rewrite Hd, IH.
Qed.

Lemma scanLines_of_joined_lines_witness :
  Forall (fun l => noNewline l = true
                   /\ (Z.of_nat (String.length l) < MaxScanTokenSize)%Z)
         [("Revision: 4" ++ String cr EmptyString)%string; "Members:"]
  /\ noNewline "1.1.1.1" = true
  /\ (Z.of_nat (String.length "1.1.1.1") < MaxScanTokenSize)%Z
  /\ scanLines (joinLines [("Revision: 4" ++ String cr EmptyString)%string; "Members:"]
                ++ "1.1.1.1")
     = (["Revision: 4"; "Members:"] ++ ["1.1.1.1"], None).
Proof.
  assert (H : Forall (fun l => noNewline l = true
                        /\ (Z.of_nat (String.length l) < MaxScanTokenSize)%Z)
                [("Revision: 4" ++ String cr EmptyString)%string; "Members:"])
    by (repeat constructor).
  assert (Hl : (Z.of_nat (String.length "1.1.1.1") < MaxScanTokenSize)%Z)
    by reflexivity.
  split; [exact H|]. split; [reflexivity|]. split; [exact Hl|].
  exact (proj1 (scanLines_of_joined_lines
                  [("Revision: 4" ++ String cr EmptyString)%string; "Members:"]
                  "1.1.1.1" H eq_refl Hl)).
Defined.

Lemma parseLines_keeps_names (lines : list string) :
  forall (info info' : Info) (late : option string),
    parseLines info lines late = Ok info' ->
    Name info' = Name info /\ SetType' info' = SetType' info.
Proof.
  induction lines as [|t rest IH]; intros info info' late H; simpl in H.
  - destruct late; inversion H; subst; split; reflexivity.
  - destruct (HasPrefix t "Rev").
    { destruct (getNumber t) as [n [e|]]; [discriminate|].
      now destruct (IH _ _ _ H). }
    destruct (HasPrefix t "H").
    { destruct (String.length t <? 8)%nat; [discriminate|].
      now destruct (IH _ _ _ H). }
    destruct (HasPrefix t "S").
    { destruct (getNumber t) as [n [e|]]; [discriminate|].
      now destruct (IH _ _ _ H). }
    destruct (HasPrefix t "Ref").
    { destruct (getNumber t) as [n [e|]]; [discriminate|].
      now destruct (IH _ _ _ H). }
    destruct (HasPrefix t "M").
    { inversion H; subst; split; reflexivity. }
    now apply IH in H.
Qed.

(** The name and the type of a set are never read from the tool's output:
    whatever the text, also when it has "Name:" and "Type:" lines, the record
    [parseInfo] returns has both empty, and the record [set.List] returns
    carries the name and type of the set the call was made on. *)
Theorem names_come_from_the_set :
  (forall (text : string) (info : Info),
     parseInfo text = Ok info -> Name info = "" /\ SetType' info = "")
  /\ (forall (run : Adapter) (s : set.set) (opts : list Option)
             (pickCmd pickOpt : nat) (cmds : list cmd) (pool : list options)
             (info : Info),
        fst (fst (List run s opts pickCmd pickOpt cmds pool)) = Ok info ->
        Name info = set.name s /\ SetType' info = set.setType s).
Proof.
  split.
  - intros text info H. unfold parseInfo in H.
    destruct (scanLines text) as [lines late].
    now apply parseLines_keeps_names in H.
  - intros run s opts pickCmd pickOpt cmds pool info H.
    unfold List in H.
    destruct (getCmd _list (set.name s) (set.setType s) [] pickCmd cmds) as [c cmds1].
    destruct (exec run c opts pickOpt pool) as [[c' err] pool'].
    simpl in H. destruct err; [discriminate|].
    destruct (parseInfo (out c')); inversion H; subst; split; reflexivity.
Qed.

Lemma names_come_from_the_set_witness :
  parseInfo ("Name: foo" ++ String nl "Type: hash:ip" ++ String nl "Revision: 4")
  = Ok (mkInfo "" "" 4 "" 0 0 [])
  /\ Name (mkInfo "" "" 4 "" 0 0 []) = "".
Proof.
  assert (H : parseInfo ("Name: foo" ++ String nl "Type: hash:ip"
                         ++ String nl "Revision: 4")
              = Ok (mkInfo "" "" 4 "" 0 0 [])) by (vm_compute; reflexivity).
  split; [exact H|].
  exact (proj1 (proj1 names_come_from_the_set _ _ H)).
Defined.

Lemma parseLines_keeps_entries (lines : list string) :
  forall (info info' : Info),
    parseLines info lines None = Ok info' ->
    Forall (fun l => HasPrefix l "M" = false) lines ->
    Entries info' = Entries info.
Proof.
  induction lines as [|t rest IH]; intros info info' H Hm; simpl in H.
  - now inversion H.
  - inversion Hm as [|? ? Ht Hrest]; subst.
    destruct (HasPrefix t "Rev").
    { destruct (getNumber t) as [n [e|]]; [discriminate|].
      now rewrite (IH _ _ H Hrest). }
    destruct (HasPrefix t "H").
    { destruct (String.length t <? 8)%nat; [discriminate|].
      now rewrite (IH _ _ H Hrest). }
    destruct (HasPrefix t "S").
    { destruct (getNumber t) as [n [e|]]; [discriminate|].
      now rewrite (IH _ _ H Hrest). }
    destruct (HasPrefix t "Ref").
    { destruct (getNumber t) as [n [e|]]; [discriminate|].
      now rewrite (IH _ _ H Hrest). }
    rewrite Ht in H. now apply IH.
Qed.

Lemma M_line_is_no_header (m : string) :
  HasPrefix m "M" = true ->
  HasPrefix m "Rev" = false /\ HasPrefix m "H" = false
  /\ HasPrefix m "S" = false /\ HasPrefix m "Ref" = false.
Proof.
  unfold HasPrefix. intros H. apply prefix_app in H. destruct H as [post ->].
  repeat split; reflexivity.
Qed.

(** The entries are the lines after the marker, as they are: once the header
    loop meets a line that starts with "M", every later line becomes one
    entry, in order, empty lines and lines that look like header lines
    included, and the header fields keep the values read before the marker. *)
Theorem parseInfo_entries_verbatim :
  forall (text : string) (pre : list string) (m : string) (rest : list string)
         (late : option string) (info' : Info),
    scanLines text = (pre ++ m :: rest, late) ->
    parseLines zeroInfo pre None = Ok info' ->
    Forall (fun l => HasPrefix l "M" = false) pre ->
    HasPrefix m "M" = true ->
    parseInfo text
    = Ok (mkInfo "" "" (Revision info') (Header info') (SizeInMemory info')
                 (References info') rest).
Proof.
  intros text pre m rest late info' Hscan Hpre Hm HM.
  unfold parseInfo. rewrite Hscan.
  rewrite (parseLines_app pre zeroInfo info' (m :: rest) late Hpre Hm).
  destruct (M_line_is_no_header m HM) as [H1 [H2 [H3 H4]]].
  simpl. rewrite H1, H2, H3, H4, HM.
  destruct (parseLines_keeps_names pre zeroInfo info' None Hpre) as [Hn Ht].
  pose proof (parseLines_keeps_entries pre zeroInfo info' Hpre Hm) as He.
  unfold appendEntries. rewrite Hn, Ht, He. reflexivity.
Qed.

Lemma parseInfo_entries_verbatim_witness :
  scanLines ("Revision: 4" ++ String nl "Members:" ++ String nl "1.1.1.1"
             ++ String nl "" ++ String nl "Header: x")
  = (["Revision: 4"] ++ "Members:" :: ["1.1.1.1"; ""; "Header: x"], None)
  /\ parseLines zeroInfo ["Revision: 4"] None = Ok (mkInfo "" "" 4 "" 0 0 [])
  /\ Forall (fun l => HasPrefix l "M" = false) ["Revision: 4"]
  /\ HasPrefix "Members:" "M" = true
  /\ parseInfo ("Revision: 4" ++ String nl "Members:" ++ String nl "1.1.1.1"
                ++ String nl "" ++ String nl "Header: x")
     = Ok (mkInfo "" "" 4 "" 0 0 ["1.1.1.1"; ""; "Header: x"]).
Proof.
  assert (Hs : scanLines ("Revision: 4" ++ String nl "Members:" ++ String nl "1.1.1.1"
                          ++ String nl "" ++ String nl "Header: x")
               = (["Revision: 4"] ++ "Members:" :: ["1.1.1.1"; ""; "Header: x"], None))
    by (vm_compute; reflexivity).
  assert (Hp : parseLines zeroInfo ["Revision: 4"] None = Ok (mkInfo "" "" 4 "" 0 0 []))
    by (vm_compute; reflexivity).
  assert (Hm : Forall (fun l => HasPrefix l "M" = false) ["Revision: 4"])
    by (repeat constructor).
  split; [exact Hs|]. split; [exact Hp|]. split; [exact Hm|]. split; [reflexivity|].
  exact (parseInfo_entries_verbatim _ _ _ _ _ _ Hs Hp Hm eq_refl).
Defined.

(** ** Formatting and parsing numbers *)

Lemma digitsValue_ge (d : Decimal.uint) : forall acc, (acc <= digitsValue d acc)%N.
Proof.
  induction d; intros acc; cbn [digitsValue]; try lia;
    match goal with
    | |- (_ <= digitsValue ?d ?x)%N => specialize (IHd x); lia
    end.
Qed.

Lemma of_uint_acc_digitsValue (d : Decimal.uint) :
  forall acc, Npos (Pos.of_uint_acc d acc) = digitsValue d (Npos acc).
Proof.
  induction d; intros acc; cbn [Pos.of_uint_acc digitsValue]; try reflexivity;
    rewrite IHd; f_equal; lia.
Qed.

Lemma of_uint_digitsValue (d : Decimal.uint) : N.of_uint d = digitsValue d 0.
Proof.
  unfold N.of_uint.
  induction d; cbn [Pos.of_uint digitsValue]; try reflexivity; try exact IHd;
    rewrite of_uint_acc_digitsValue; reflexivity.
Qed.

Lemma parseUintLoop_step (c : ascii) (s : string) (n k : N) :
  N_of_ascii c = (48 + k)%N -> (k <= 9)%N ->
  (n * 10 + k < 18446744073709551616)%N ->
  parseUintLoop (String c s) n = parseUintLoop s (n * 10 + k).
Proof.
  intros Hc Hk Hlt. cbn [parseUintLoop]. cbv zeta. rewrite Hc.
  replace ((48 <=? 48 + k)%N) with true by (symmetry; apply N.leb_le; lia).
  replace ((48 + k <=? 57)%N) with true by (symmetry; apply N.leb_le; lia).
  cbn [andb].
  replace ((1844674407370955162 <=? n)%N) with false by (symmetry; apply N.leb_gt; lia).
  replace (48 + k - 48)%N with k by lia.
  replace ((18446744073709551615 <? n * 10 + k)%N) with false
    by (symmetry; apply N.ltb_ge; lia).
  reflexivity.
Qed.

Lemma parseUintLoop_digits (d : Decimal.uint) :
  forall n, (digitsValue d n < 18446744073709551616)%N ->
  parseUintLoop (NilEmpty.string_of_uint d) n = inl (digitsValue d n).
Proof.
  induction d; intros n H; cbn [digitsValue NilEmpty.string_of_uint] in H |- *;
    try reflexivity.
  - pose proof (digitsValue_ge d (n * 10)).
    rewrite (parseUintLoop_step _ _ n 0) by (try reflexivity; lia).
    rewrite N.add_0_r. now apply IHd.
  - pose proof (digitsValue_ge d (n * 10 + 1)).
    rewrite (parseUintLoop_step _ _ n 1) by (try reflexivity; lia). now apply IHd.
  - pose proof (digitsValue_ge d (n * 10 + 2)).
    rewrite (parseUintLoop_step _ _ n 2) by (try reflexivity; lia). now apply IHd.
  - pose proof (digitsValue_ge d (n * 10 + 3)).
    rewrite (parseUintLoop_step _ _ n 3) by (try reflexivity; lia). now apply IHd.
  - pose proof (digitsValue_ge d (n * 10 + 4)).
    rewrite (parseUintLoop_step _ _ n 4) by (try reflexivity; lia). now apply IHd.
  - pose proof (digitsValue_ge d (n * 10 + 5)).
    rewrite (parseUintLoop_step _ _ n 5) by (try reflexivity; lia). now apply IHd.
  - pose proof (digitsValue_ge d (n * 10 + 6)).
    rewrite (parseUintLoop_step _ _ n 6) by (try reflexivity; lia). now apply IHd.
  - pose proof (digitsValue_ge d (n * 10 + 7)).
    rewrite (parseUintLoop_step _ _ n 7) by (try reflexivity; lia). now apply IHd.
  - pose proof (digitsValue_ge d (n * 10 + 8)).
    rewrite (parseUintLoop_step _ _ n 8) by (try reflexivity; lia). now apply IHd.
  - pose proof (digitsValue_ge d (n * 10 + 9)).
    rewrite (parseUintLoop_step _ _ n 9) by (try reflexivity; lia). now apply IHd.
Qed.

Lemma string_of_uint_digits (d : Decimal.uint) :
  allDigits (NilEmpty.string_of_uint d) = true.
Proof. induction d; cbn [NilEmpty.string_of_uint allDigits]; try reflexivity; exact IHd. Qed.

Lemma allDigits_noSpace (s : string) : allDigits s = true -> noSpace s = true.
Proof.
  induction s as [|c s IH]; [reflexivity|].
  cbn [allDigits noSpace]. intros H. apply andb_true_iff in H. destruct H as [Hc Hs].
  rewrite (IH Hs), andb_true_r.
  apply negb_true_iff. destruct (Ascii.eqb c space) eqn:E; [|reflexivity].
  apply Ascii.eqb_eq in E. subst c. discriminate Hc.
Qed.

Lemma to_uint_nonnil (n : N) : N.to_uint n <> Decimal.Nil.
Proof.
  destruct n as [|p]; simpl; [discriminate|].
  apply DecimalPos.Unsigned.to_uint_nonnil.
Qed.

Lemma Atoi_digits (d : Decimal.uint) (n : N) :
  d <> Decimal.Nil ->
  parseUintLoop (NilEmpty.string_of_uint d) 0 = inl n ->
  Atoi (NilEmpty.string_of_uint d)
  = if (9223372036854775808 <=? n)%N
    then (9223372036854775807%Z,
          Some (mkNumError "Atoi" (NilEmpty.string_of_uint d) ErrRange))
    else (Z.of_N n, None).
Proof.
  intros Hnil Hloop.
  destruct d; [now elim Hnil| | | | | | | | | |];
    unfold Atoi; cbn [NilEmpty.string_of_uint] in Hloop |- *;
    cbn [Ascii.eqb Bool.eqb]; cbv iota; unfold ParseUint; rewrite Hloop;
    reflexivity.
Qed.

Lemma Atoi_i2str_gen (n : N) :
  (n < 18446744073709551616)%N ->
  Atoi (i2str n)
  = if (9223372036854775808 <=? n)%N
    then (9223372036854775807%Z, Some (mkNumError "Atoi" (i2str n) ErrRange))
    else (Z.of_N n, None).
Proof.
  intros Hn. unfold i2str.
  apply Atoi_digits; [apply to_uint_nonnil|].
  pose proof (DecimalN.Unsigned.of_to n) as Hof.
  rewrite of_uint_digitsValue in Hof.
  rewrite <- Hof at 2. apply parseUintLoop_digits. now rewrite Hof.
Qed.

Lemma Atoi_i2str_gen_small (n : N) :
  (n < 9223372036854775808)%N -> Atoi (i2str n) = (Z.of_N n, None).
Proof.
  intros Hn. rewrite Atoi_i2str_gen by lia.
  destruct (9223372036854775808 <=? n)%N eqn:Hc;
    [apply N.leb_le in Hc; lia | reflexivity].
Qed.

(** Parsing undoes formatting, up to the range of [int]: for every unsigned
    64-bit number the text [i2str] gives holds decimal digits only, [Atoi]
    reads it back as that number with no error when the number is below
    2^63, and reports a range error with the largest [int] when it is not. *)
Theorem Atoi_reads_back_i2str :
  forall (n : N),
    (n < 18446744073709551616)%N ->
    allDigits (i2str n) = true
    /\ ((n < 9223372036854775808)%N -> Atoi (i2str n) = (Z.of_N n, None))
    /\ ((9223372036854775808 <= n)%N ->
        Atoi (i2str n)
        = (9223372036854775807%Z, Some (mkNumError "Atoi" (i2str n) ErrRange))).
Proof.
  intros n Hn. split; [apply string_of_uint_digits|].
  pose proof (Atoi_i2str_gen n Hn) as H.
  split; intros Hb; rewrite H.
  - destruct (9223372036854775808 <=? n)%N eqn:Hc;
      [apply N.leb_le in Hc; lia | reflexivity].
  - apply N.leb_le in Hb. now rewrite Hb.
Qed.

Lemma Atoi_reads_back_i2str_witness :
  (65536 < 18446744073709551616)%N /\ Atoi (i2str 65536) = (65536%Z, None).
Proof.
  assert (H : (65536 < 18446744073709551616)%N) by reflexivity.
  split; [exact H|].
  exact (proj1 (proj2 (Atoi_reads_back_i2str 65536%N H)) eq_refl).
Defined.

(** ** Parsing a well-formed listing *)

Lemma noSpace_LastIndexByte (t : string) :
  noSpace t = true -> LastIndexByte t space = None.
Proof.
  induction t as [|a t IH]; [reflexivity|].
  cbn [noSpace LastIndexByte]. intros H. apply andb_true_iff in H.
  destruct H as [Ha Ht]. rewrite (IH Ht).
  apply negb_true_iff in Ha. now rewrite Ha.
Qed.

Lemma LastIndexByte_app_space (pre tok : string) :
  noSpace tok = true ->
  LastIndexByte (pre ++ String space tok) space = Some (String.length pre).
Proof.
  intros Htok. induction pre as [|a pre IH].
  - cbn [append LastIndexByte String.length].
    now rewrite (noSpace_LastIndexByte tok Htok), Ascii.eqb_refl.
  - cbn [append LastIndexByte String.length]. now rewrite IH.
Qed.

Lemma sliceFrom_app_space (pre tok : string) :
  sliceFrom (pre ++ String space tok) (String.length pre + 1) = tok.
Proof.
  induction pre as [|a pre IH].
  - cbn [append String.length Nat.add sliceFrom]. apply sliceFrom_0.
  - cbn [append String.length Nat.add sliceFrom]. exact IH.
Qed.

Lemma getNumber_label (pre : string) (n : N) :
  (n < 9223372036854775808)%N ->
  getNumber (pre ++ String space (i2str n)) = (Z.of_N n, None).
Proof.
  intros Hn. unfold getNumber.
  rewrite LastIndexByte_app_space
    by (apply allDigits_noSpace, string_of_uint_digits).
  rewrite sliceFrom_app_space. now apply Atoi_i2str_gen_small.
Qed.

Lemma plainLines_scan (ls : list string) :
  Forall plainLine ls -> scanLines (joinLines ls) = (ls, None).
Proof.
  intros Hplain.
  assert (Hall : Forall (fun l => noNewline l = true
                           /\ (Z.of_nat (String.length l) < MaxScanTokenSize)%Z) ls).
  { eapply Forall_impl; [|exact Hplain]. intros l [H1 [H2 _]]. now split. }
  pose proof (scanLines_joined ls EmptyString Hall eq_refl) as H.
  rewrite append_nil_r in H. rewrite H by (unfold MaxScanTokenSize; simpl; lia).
  simpl. rewrite app_nil_r. f_equal.
  clear - Hplain. induction Hplain as [|l ls [_ [_ Hd]] _ IH]; [reflexivity|].
  simpl. now rewrite Hd, IH.
Qed.

Lemma parseLines_skip (t : string) (info : Info) (rest : list string)
    (late : option string) :
  HasPrefix t "Rev" = false -> HasPrefix t "H" = false -> HasPrefix t "S" = false ->
  HasPrefix t "Ref" = false -> HasPrefix t "M" = false ->
  parseLines info (t :: rest) late = parseLines info rest late.
Proof. intros H1 H2 H3 H4 H5. cbn [parseLines]. now rewrite H1, H2, H3, H4, H5. Qed.

(** A well-formed listing is read back: for the text the tool prints (name,
    type, revision, header, size in memory, references, number of entries,
    the members marker and one line per entry, each line ended by a newline)
    [parseInfo] returns the revision, the header text, the size, the
    reference count and the entries that were printed, and leaves the name and
    the type empty. The numbers must be below 2^63 and every line must be
    plain: no newline inside, shorter than the scanner's buffer, no carriage
    return at its end. *)
Theorem parseInfo_reads_wellformed_listing :
  forall (nm ty : string) (rev : N) (hdr : string) (size refs : N)
         (entries : list string),
    (rev < 9223372036854775808)%N ->
    (size < 9223372036854775808)%N ->
    (refs < 9223372036854775808)%N ->
    Forall plainLine (listingLines nm ty rev hdr size refs entries) ->
    parseInfo (joinLines (listingLines nm ty rev hdr size refs entries))
    = Ok (mkInfo "" "" (Z.of_N rev) hdr (Z.of_N size) (Z.of_N refs) entries).
Proof.
  intros nm ty rev hdr size refs entries Hrev Hsize Hrefs Hplain.
  unfold parseInfo. rewrite (plainLines_scan _ Hplain).
  unfold listingLines. cbn [app].
  rewrite parseLines_skip by reflexivity.
  rewrite parseLines_skip by reflexivity.
  rewrite (parseLines_numeric _ setRevision) by reflexivity.
  change ("Revision: " ++ i2str rev)%string
    with ("Revision:" ++ String space (i2str rev))%string.
  rewrite (getNumber_label _ rev Hrev).
  assert (Hh : parseLines (setRevision zeroInfo (Z.of_N rev))
                 (("Header: " ++ hdr)%string
                  :: ("Size in memory: " ++ i2str size)%string
                  :: ("References: " ++ i2str refs)%string
                  :: ("Number of entries: "
                      ++ i2str (N.of_nat (List.length entries)))%string
                  :: "Members:" :: entries) None
               = parseLines (setHeader (setRevision zeroInfo (Z.of_N rev)) hdr)
                   (("Size in memory: " ++ i2str size)%string
                    :: ("References: " ++ i2str refs)%string
                    :: ("Number of entries: "
                        ++ i2str (N.of_nat (List.length entries)))%string
                    :: "Members:" :: entries) None).
  { cbn [parseLines].
    change (HasPrefix ("Header: " ++ hdr) "Rev") with false.
    change (HasPrefix ("Header: " ++ hdr) "H") with true.
    change (String.length ("Header: " ++ hdr) <? 8)%nat with false.
    change (sliceFrom ("Header: " ++ hdr) 8) with (sliceFrom hdr 0).
    cbv iota. now rewrite sliceFrom_0. }
  rewrite Hh.
  rewrite (parseLines_numeric _ setSizeInMemory) by reflexivity.
  change ("Size in memory: " ++ i2str size)%string
    with ("Size in memory:" ++ String space (i2str size))%string.
  rewrite (getNumber_label _ size Hsize).
  rewrite (parseLines_numeric _ setReferences) by reflexivity.
  change ("References: " ++ i2str refs)%string
    with ("References:" ++ String space (i2str refs))%string.
  rewrite (getNumber_label _ refs Hrefs).
  rewrite parseLines_skip by reflexivity.
  reflexivity.
Qed.

Lemma parseInfo_reads_wellformed_listing_witness :
  (4 < 9223372036854775808)%N /\ (168 < 9223372036854775808)%N
  /\ (0 < 9223372036854775808)%N
  /\ Forall plainLine
       (listingLines "foo" "hash:ip" 4 "family inet hashsize 1024 maxelem 65536"
                     168 0 ["1.1.1.1"])
  /\ parseInfo (joinLines
       (listingLines "foo" "hash:ip" 4 "family inet hashsize 1024 maxelem 65536"
                     168 0 ["1.1.1.1"]))
     = Ok (mkInfo "" "" 4 "family inet hashsize 1024 maxelem 65536" 168 0 ["1.1.1.1"]).
Proof.
  assert (Hp : Forall plainLine
                 (listingLines "foo" "hash:ip" 4
                    "family inet hashsize 1024 maxelem 65536" 168 0 ["1.1.1.1"])).
  { unfold listingLines, plainLine, MaxScanTokenSize.
    repeat constructor; vm_compute; reflexivity. }
  split; [reflexivity|]. split; [reflexivity|]. split; [reflexivity|].
  split; [exact Hp|].
  exact (parseInfo_reads_wellformed_listing "foo" "hash:ip" 4%N
           "family inet hashsize 1024 maxelem 65536" 168%N 0%N ["1.1.1.1"]
           eq_refl eq_refl eq_refl Hp).
Defined.

(** ** The reader of a dump and the pooled buffer *)

Lemma exec_save_ok (grow : nat -> nat -> nat) (run : Adapter) (c : Shared.cmd)
    (opts : list Option) (pick : nat) (pool : list options) (h : Shared.heap) (o : string) :
  (forall args, run args = mkExec o false) ->
  Shared.action c = _save ->
  exists pool',
    Shared.exec grow run c opts pick pool h
    = (Shared.mkCmd (Shared.action c) (Shared.name c) (Shared.entry c) (Shared.setType c)
         (snd (Shared.append grow h (Shared.out c) (list_ascii_of_string o))),
       None, pool', fst (Shared.append grow h (Shared.out c) (list_ascii_of_string o))).
Proof.
  intros Hrun Ha. unfold Shared.exec.
  destruct (buildArgs (Shared.fields c) opts pick pool) as [args pool'].
  exists pool'. rewrite Hrun. simpl.
  unfold needResolve, Shared.fields. simpl. rewrite Ha. simpl.
  destruct (Shared.append grow h (Shared.out c) (list_ascii_of_string o)); reflexivity.
Qed.

Lemma Save_ok (grow : nat -> nat -> nat) (run : Adapter) (s : set.set)
    (opts : list Option) (pickCmd pickOpt : nat) (cmds : list Shared.cmd)
    (pool : list options) (h : Shared.heap) (o : string) :
  (forall args, run args = mkExec o false) ->
  exists pool',
    Shared.Save grow run s opts pickCmd pickOpt cmds pool h
    = (let (c, cmds1) := Shared.getCmd _save (set.name s) (set.setType s) [] pickCmd cmds in
       let (h', sl) := Shared.append grow h (Shared.out c) (list_ascii_of_string o) in
       (Some sl, None,
        Shared.putCmd (Shared.mkCmd (Shared.action c) (Shared.name c) (Shared.entry c)
                         (Shared.setType c) sl) cmds1,
        pool', h')).
Proof.
  intros Hrun. unfold Shared.Save.
  destruct (Shared.getCmd _save (set.name s) (set.setType s) [] pickCmd cmds)
    as [c cmds1] eqn:Hg.
  assert (Ha : Shared.action c = _save).
  { unfold Shared.getCmd in Hg.
    destruct (poolGet Shared.zeroCmd pickCmd cmds). inversion Hg. reflexivity. }
  destruct (exec_save_ok grow run c opts pickOpt pool h o Hrun Ha) as [pool' He].
  exists pool'. rewrite He.
  destruct (Shared.append grow h (Shared.out c) (list_ascii_of_string o)); reflexivity.
Qed.

(** The reader [set.Save] returns is not a copy of the output: it reads the
    buffer of a descriptor that goes back to the pool. When the pool hands
    that descriptor to the next Save and the new output is not longer than the
    old one, the new output is written over the old one in place, and the
    first reader from then on yields the new output followed by what is left
    of the old one. *)
Theorem Save_reader_shares_buffer :
  forall (grow : nat -> nat -> nat) (run1 run2 : Adapter) (s : set.set)
         (opts1 opts2 : list Option) (pick1 pick2 : nat) (pool : list options)
         (h : Shared.heap) (o1 o2 : string),
    (forall c n, (n <= grow c n)%nat) ->
    (forall args, run1 args = mkExec o1 false) ->
    (forall args, run2 args = mkExec o2 false) ->
    (0 < List.length (list_ascii_of_string o1))%nat ->
    (List.length (list_ascii_of_string o2) <= List.length (list_ascii_of_string o1))%nat ->
    let '(rd1, _, cmds1, pool1, h1) := Shared.Save grow run1 s opts1 0 pick1 [] pool h in
    let '(rd2, _, _, _, h2) := Shared.Save grow run2 s opts2 0 pick2 cmds1 pool1 h1 in
    exists r1 r2,
      rd1 = Some r1 /\ rd2 = Some r2
      /\ Shared.contents h1 r1 = list_ascii_of_string o1
      /\ Shared.contents h2 r2 = list_ascii_of_string o2
      /\ Shared.contents h2 r1
         = list_ascii_of_string o2
           ++ skipn (List.length (list_ascii_of_string o2)) (list_ascii_of_string o1).
Proof.
  intros grow run1 run2 s opts1 opts2 pick1 pick2 pool h o1 o2 Hgrow Hr1 Hr2 Hpos Hle.
  set (b1 := list_ascii_of_string o1) in *.
  set (b2 := list_ascii_of_string o2) in *.
  destruct (Save_ok grow run1 s opts1 0 pick1 [] pool h o1 Hr1) as [pool1 E1].
  rewrite E1. clear E1. fold b1.
  cbn [Shared.getCmd poolGet Shared.zeroCmd Shared.out Shared.entry].
  unfold Shared.append at 1. cbn [Shared.len Shared.cap Shared.base Shared.nilSlice Nat.add].
  assert (Hn1 : (List.length b1 <=? 0)%nat = false) by (apply Nat.leb_gt; lia).
  rewrite Hn1. cbv zeta.
  set (c1 := grow 0%nat (List.length b1)).
  assert (Hc1 : (List.length b1 <= c1)%nat) by apply Hgrow.
  set (arr := b1 ++ repeat "000"%char (c1 - List.length b1)).
  change (Shared.contents h Shared.nilSlice ++ arr) with arr.
  unfold Shared.putCmd, poolPut.
  cbn [Shared.action Shared.name Shared.entry Shared.setType
       Shared.out Shared.base Shared.cap].
  destruct (Save_ok grow run2 s opts2 0 pick2
              [Shared.mkCmd _save (set.name s) "" (set.setType s)
                 (Shared.mkSlice (Some (List.length h)) 0 c1)]
              pool1 (h ++ [arr]) o2 Hr2) as [pool2 E2].
  rewrite E2. clear E2. fold b2.
  cbn [Shared.getCmd poolGet Shared.out Shared.entry].
  unfold Shared.append. cbn [Shared.len Shared.cap Shared.base Nat.add].
  assert (Hn2 : (List.length b2 <=? c1)%nat = true) by (apply Nat.leb_le; lia).
  rewrite Hn2.
  assert (Hnth : nth (List.length h) (h ++ [arr]) [] = arr) by apply nth_middle.
  rewrite Hnth.
  assert (Hstore : forall arr', Shared.store (h ++ [arr]) (List.length h) arr'
                                = h ++ [arr']).
  { intros arr'. unfold Shared.store.
    rewrite firstn_app, firstn_all, Nat.sub_diag. simpl firstn. rewrite app_nil_r.
    rewrite skipn_all2 by (rewrite length_app; simpl; lia). reflexivity. }
  rewrite Hstore.
  exists (Shared.mkSlice (Some (List.length h)) (List.length b1) c1).
  exists (Shared.mkSlice (Some (List.length h)) (List.length b2) c1).
  unfold Shared.contents. cbn [Shared.base Shared.len].
  rewrite Hnth, !nth_middle.
  unfold Shared.writeAt. cbn [firstn app Nat.add].
  repeat split.
  - unfold arr. rewrite firstn_app, firstn_all, Nat.sub_diag. simpl. apply app_nil_r.
  - rewrite firstn_app, firstn_all, Nat.sub_diag. simpl. apply app_nil_r.
  - rewrite firstn_app, firstn_all2 by lia. f_equal.
    unfold arr. rewrite skipn_app.
    rewrite firstn_app.
    rewrite firstn_all2 by (rewrite length_skipn; lia).
    rewrite length_skipn.
    replace (List.length b2 - List.length b1)%nat with 0%nat by lia.
    replace (List.length b1 - List.length b2 - (List.length b1 - List.length b2))%nat
      with 0%nat by lia.
    simpl skipn. simpl firstn. apply app_nil_r.
Qed.

Lemma Save_reader_shares_buffer_witness :
  (forall c n : nat, (n <= (fun _ m => m) c n)%nat)
  /\ (0 < List.length (list_ascii_of_string "add foo 1.1.1.1"))%nat
  /\ (List.length (list_ascii_of_string "add foo 2.2")
      <= List.length (list_ascii_of_string "add foo 1.1.1.1"))%nat
  /\ (let '(rd1, _, cmds1, pool1, h1) :=
        Shared.Save (fun _ m => m) (fun _ => mkExec "add foo 1.1.1.1" false)
                    (set.mk "foo" HashIp) [] 0 0 [] [] [] in
      let '(rd2, _, _, _, h2) :=
        Shared.Save (fun _ m => m) (fun _ => mkExec "add foo 2.2" false)
                    (set.mk "foo" HashIp) [] 0 0 cmds1 pool1 h1 in
      exists r1 r2,
        rd1 = Some r1 /\ rd2 = Some r2
        /\ Shared.contents h1 r1 = list_ascii_of_string "add foo 1.1.1.1"
        /\ Shared.contents h2 r2 = list_ascii_of_string "add foo 2.2"
        /\ Shared.contents h2 r1
           = list_ascii_of_string "add foo 2.2"
             ++ skipn (List.length (list_ascii_of_string "add foo 2.2"))
                      (list_ascii_of_string "add foo 1.1.1.1")).
Proof.
  assert (Hg : forall c n : nat, (n <= (fun _ m => m) c n)%nat) by (intros; simpl; lia).
  assert (Hp : (0 < List.length (list_ascii_of_string "add foo 1.1.1.1"))%nat)
    by (simpl; lia).
  assert (Hl : (List.length (list_ascii_of_string "add foo 2.2")
                <= List.length (list_ascii_of_string "add foo 1.1.1.1"))%nat)
    by (simpl; lia).
  split; [exact Hg|]. split; [exact Hp|]. split; [exact Hl|].
  exact (Save_reader_shares_buffer (fun _ m => m)
           (fun _ => mkExec "add foo 1.1.1.1" false)
           (fun _ => mkExec "add foo 2.2" false)
           (set.mk "foo" HashIp) [] [] 0 0 [] [] "add foo 1.1.1.1" "add foo 2.2"
           Hg (fun _ => eq_refl) (fun _ => eq_refl) Hp Hl).
Defined.
